(** * ddtpy: the driver [main] of the DDT galaxy-subtraction pipeline

    A shallow embedding of [src/ddtpy/main.py].  The driver reads a JSON
    configuration, loads the datacubes, neutralises NaN pixels, builds the
    forward model, runs the joint fit and then registers the non-master
    final-reference epochs one by one.

    numpy's float64 is Rocq's primitive binary64 [float]; arrays are nested
    lists; the configuration dictionary is a [gmap]; Python exceptions are an
    error type threaded through a small writer/error monad whose log records
    every call into the other modules of the package ([data], [psf], [adr],
    [model], [fitting], [registration]), which are collaborators of [main].

    Conventions of the embedding:
    - Python 3 semantics for the operators on configuration values;
    - the collaborators are functions of their arguments: [evaluate] does not
      change the model (section 4.2 of the specification), [fit_position]
      returns a position and a flag (section 4.4), [fit_model_all_epoch]
      returns the model it has updated and leaves [ddtdata] alone;
    - the per-epoch arrays of the configuration ([PARAM_AIRMASS],
      [PARAM_TARGET_XP], ...) are flat lists of numbers; another value is
      reported as [TypeError] where the array is built;
    - [ddtdata] and [model] are objects the registration loop changes in
      place: the loop is run on them as a state, which keeps what was
      written when a line raises; the code after the loop is given the
      objects of a run that ended normally;
    - element-wise operations pair the elements of arrays of one shape, the
      shape [DDTData] and [DDTModel.evaluate] agree on; numpy's refusal to
      combine arrays of different shapes is not modelled. *)

From Stdlib Require Import Floats ZArith Uint63.
From stdpp Require Import gmap strings list.

(** ** Python values *)

(** What [json.load] produces. *)
#[local] Unset Elimination Schemes.
Inductive json : Type :=
| JNull
| JBool (b : bool)
| JInt (n : Z)
| JFloat (x : float)
| JStr (s : string)
| JList (l : list json)
| JObj (l : list (string * json)).
#[local] Set Elimination Schemes.

(** The exceptions [main] can surface. *)
Inductive exn : Type :=
| KeyError (key : json)
| IndexError
| TypeError
| ValueError
| RuntimeError (msg : string).

(** A Python number that is an [int] or a [float]: what
    [conf["PARAM_FINAL_REF"] - 1] can be. *)
Inductive pynum : Type :=
| PyInt (n : Z)
| PyFloat (x : float).

(** Arrays, with numpy's axis order. *)
Abbreviation plane := (list (list float)).          (* [y][x] *)
Abbreviation cube := (list (list (list float))).    (* [wave][y][x] *)
Abbreviation hypercube := (list (list (list (list float)))). (* [epoch][wave][y][x] *)

(** Modelled from the spec: the [DDTData] class of [data.py] (section 3,
    Datacube Store): the arrays it holds, the final-reference flags and the
    shape attributes [nt], [nw], [ny], [nx] that [main] reads. *)
Record DDTData : Type := {
  data : hypercube;
  weight : hypercube;
  wave : list float;
  is_final_ref : json;
  master_final_ref : pynum;
  header : gmap string json;
  spaxel_size : json;
  nt : nat;
  nw : nat;
  ny : nat;
  nx : nat;
}.

(** Modelled from the spec: the [DDTModel] class of [model.py] (section 3,
    Forward Model): galaxy, point-source and sky parameters, the per-epoch
    registration offsets, the PSF and the ADR shifts. *)
Record DDTModel : Type := {
  galaxy : cube;
  sn : list (list float);
  sky : list (list float);
  data_xctr : list float;
  data_yctr : list float;
  psf : hypercube;
  adr_dx : list (list float);
  adr_dy : list (list float);
}.

(** ** Calls into the rest of the package *)

Inductive event : Type :=
| CallReadHeader (path : json)
| CallReadDataset (paths : json)
| CallParamsFromGs (es_psf_params : json) (waves : list float) (wave_ref : json)
| CallDifferentialRefraction (airmass p t h waves : list float) (wave_ref : json)
| CallParalacticAngle (airmass ha dec : list float) (tilt : json)
| CallGuessSky (d : DDTData)
| CallDDTModel (shape : nat * nat) (data_xctr_init data_yctr_init : list float)
| CallFitModelAllEpoch (m : DDTModel) (d : DDTData)
| CallEvaluate (i_t : nat) (xcoords ycoords : list float) (m : cube)
| CallFitPosition (i_t : nat) (w : hypercube) (maxiter : Z)
                  (pos : float * float) (convergence : bool).

(** The functions [main] imports.  Their code lives in other modules; each is
    taken as a function of its arguments. *)
Class Collaborators : Type := {
  read_select_header_keys : json → gmap string json;
  read_dataset : json → hypercube * hypercube * list float;
  params_from_gs :
    json → list float → json → list (list float) * list (list float);
  differential_refraction :
    list float → list float → list float → list float → list float → json →
    list (list float);
  calc_paralactic_angle :
    list float → list float → list float → json → list float;
  np_sin : float → float;
  np_cos : float → float;
  guess_sky : DDTData → float → list (list float);
  DDTModel_init :
    nat * nat → list (list float) → list (list float) →
    list (list float) → list (list float) → json → json → json →
    list float → list float → list (list float) → DDTModel;
  fit_model_all_epoch : DDTModel → DDTData → DDTModel;
  evaluate : DDTModel → nat → list float → list float → cube;
  fit_position : DDTData → DDTModel → nat → Z → (float * float) * bool;
}.

(** ** The monad: a call log and an exception or a value *)

Definition M (A : Type) : Type := list event * (exn + A).

Definition ret {A} (a : A) : M A := ([], inr a).
Definition raise {A} (e : exn) : M A := ([], inl e).
Definition emit (e : event) : M unit := ([e], inr tt).

Definition bind {A B} (m : M A) (f : A → M B) : M B :=
  match m with
  | (l, inl e) => (l, inl e)
  | (l, inr a) => match f a with (l', r) => (l ++ l', r) end
  end.

Notation "'let*' x ':=' m 'in' f" := (bind m (λ x, f))
  (at level 10, x pattern, m at level 100, f at level 200).
Notation "m ';;' f" := (bind m (λ _, f))
  (at level 100, f at level 200, right associativity).

Definition or_raise {A} (e : exn) (o : option A) : M A :=
  match o with Some a => ret a | None => raise e end.

Definition calls {A} (m : M A) : list event := m.1.
Definition outcome {A} (m : M A) : exn + A := m.2.

(** [for i in l: s = body(i, s)] *)
Fixpoint for_each {S} (body : nat → S → M S) (l : list nat) (s : S) : M S :=
  match l with
  | [] => ret s
  | i :: l' => let* s' := body i s in for_each body l' s'
  end.

(** ** Numbers *)

(** [float(n)] for a Python integer; exact below 2^53. *)
Definition float_of_Z (n : Z) : float :=
  if (n <? 0)%Z then (- PrimFloat.of_uint63 (Uint63.of_Z (- n)))%float
  else PrimFloat.of_uint63 (Uint63.of_Z n).

(** A bool in arithmetic is 1.0 or 0.0. *)
Definition b2f (b : bool) : float := if b then 1%float else 0%float.

(** [v - 1] for a configuration value: an [int] stays an [int] (a bool is
    an [int]), a [float] stays a [float], anything else is a [TypeError]. *)
Definition sub_one (v : json) : option pynum :=
  match v with
  | JInt n => Some (PyInt (n - 1))
  | JBool b => Some (PyInt (Z.b2z b - 1))
  | JFloat x => Some (PyFloat (x - 1))
  | _ => None
  end.

(** [m >= 0] *)
Definition ge_zero (m : pynum) : bool :=
  match m with
  | PyInt n => (0 <=? n)%Z
  | PyFloat x => (0 <=? x)%float
  end.

Definition as_float (v : json) : option float :=
  match v with
  | JInt n => Some (float_of_Z n)
  | JFloat x => Some x
  | JBool b => Some (b2f b)
  | _ => None
  end.

(** [np.array(v)] for a flat list of numbers. *)
Definition np_array (v : json) : option (list float) :=
  match v with
  | JList l => mapM as_float l
  | _ => None
  end.

(** Truth value of an array element, as [not a[i]] takes it. *)
Definition truthy (v : json) : option bool :=
  match v with
  | JNull => Some false
  | JBool b => Some b
  | JInt n => Some (negb (n =? 0)%Z)
  | JFloat x => Some (negb (x =? 0)%float)
  | JStr s => Some (negb (String.eqb s ""))
  | JList _ | JObj _ => None
  end.

(** [v >= 2] for a configuration value. *)
Definition ge_two (v : json) : option bool :=
  match v with
  | JInt n => Some (2 <=? n)%Z
  | JBool _ => Some false
  | JFloat x => Some (2 <=? x)%float
  | _ => None
  end.

Definition is_str (s : string) (v : json) : bool :=
  match v with
  | JStr s' => String.eqb s' s
  | _ => false
  end.

(** [conf[key]] and [conf.get(key, default)] *)
Definition getitem (conf : gmap string json) (key : string) : M json :=
  or_raise (KeyError (JStr key)) (conf !! key).

Definition get_default (conf : gmap string json) (key : string) (d : json) : json :=
  default d (conf !! key).

(** ** numpy on nested lists *)

Definition get2 {A} (a : list (list A)) (y x : nat) : option A :=
  match a !! y with Some r => r !! x | None => None end.

Definition get3 {A} (a : list (list (list A))) (l y x : nat) : option A :=
  match a !! l with Some p => get2 p y x | None => None end.

Definition get4 {A} (a : list (list (list (list A)))) (t l y x : nat) : option A :=
  match a !! t with Some c => get3 c l y x | None => None end.

Definition map4 {A B} (f : A → B) :
  list (list (list (list A))) → list (list (list (list B))) :=
  fmap (M:=list) (fmap (M:=list) (fmap (M:=list) (fmap (M:=list) f))).

Definition zip4 {A B C} (f : A → B → C) :
  list (list (list (list A))) → list (list (list (list B))) →
  list (list (list (list C))) :=
  zip_with (zip_with (zip_with (zip_with f))).

(** [a[:, 200:201, :, :]] *)
Definition slice_wave {A} (a : list (list A)) : list (list A) :=
  (λ ep, take 1 (drop 200 ep)) <$> a.

(** [a[mask] = 0.0] *)
Definition zero_where (mask : list (list (list (list bool)))) (a : hypercube) : hypercube :=
  zip4 (λ (b : bool) (v : float), if b then 0%float else v) mask a.

(** [np.arange(n) - (n - 1) / 2. + ctr] *)
Definition centred_coords (n : nat) (ctr : float) : list float :=
  (λ k : nat, (float_of_Z (Z.of_nat k) - float_of_Z (Z.of_nat n - 1) / 2 + ctr)%float)
    <$> seq 0 n.

(** [m.sum(axis=0)]: the planes added in order; an empty wavelength axis
    gives zeros of the plane's shape. *)
Definition plane_add : plane → plane → plane := zip_with (zip_with PrimFloat.add).

Definition sum_axis0 (n_y n_x : nat) (m : cube) : plane :=
  match m with
  | [] => replicate n_y (replicate n_x 0%float)
  | p :: ps => foldl plane_add p ps
  end.

Fixpoint insert_sorted (v : float) (l : list float) : list float :=
  match l with
  | [] => [v]
  | u :: l' => if (v <=? u)%float then v :: l else u :: insert_sorted v l'
  end.

Definition sort_floats (l : list float) : list float := foldr insert_sorted [] l.

(** [np.median] of the flattened array: NaN when a NaN is present or the
    array is empty, the middle element, or the mean of the two middle ones. *)
Definition np_median (l : list float) : float :=
  if existsb PrimFloat.is_nan l then nan
  else
    let s := sort_floats l in
    let n := length l in
    if (n =? 0)%nat then nan
    else if Nat.odd n then nth (n / 2) s nan
    else ((nth (n / 2 - 1) s nan + nth (n / 2) s nan) / 2)%float.

(** [np.min] of the flattened array: [ValueError] when empty, NaN when a NaN
    is present. *)
Definition float_min (a b : float) : float := if (b <? a)%float then b else a.

Definition np_min (l : list float) : option float :=
  match l with
  | [] => None
  | v :: l' =>
      Some (if existsb PrimFloat.is_nan l then nan else foldl float_min v l')
  end.

(** [mask.sum()] *)
Definition mask_sum (mask : list (list bool)) : nat :=
  sum_list_with (λ b : bool, if b then 1 else 0)%nat (concat mask).

(** [w * mask[None, :, :]] *)
Definition apply_mask (mask : list (list bool)) (w : cube) : cube :=
  (λ p, zip_with (zip_with (λ (v : float) (b : bool), (v * b2f b)%float)) p mask) <$> w.

(** ** The registration stage (lines 147-208) *)

Definition maxiter_fit_position : Z := 100.
Definition maxmove_fit_position : float := 3%float.
Definition mask_nmad : float := 2.5%float.

(** [np.median(np.abs(tmp_m - np.median(tmp_m)))] *)
Definition flux_mad (tmp_m : plane) : float :=
  let med := np_median (concat tmp_m) in
  np_median ((λ v, PrimFloat.abs (v - med)%float) <$> concat tmp_m).

(** [np.min(tmp_m) + mask_nmad * tmp_mad] *)
Definition flux_threshold (tmp_m : plane) : option float :=
  (λ lo, (lo + mask_nmad * flux_mad tmp_m)%float) <$> np_min (concat tmp_m).

(** [tmp_m > threshold] *)
Definition flux_mask (thr : float) (tmp_m : plane) : list (list bool) :=
  fmap (M:=list) (fmap (M:=list) (λ v, (thr <? v)%float)) tmp_m.

(** [math.sqrt((pos[0] - x0)**2 + (pos[1] - y0)**2)], with [**2] as the
    correctly rounded square.  The argument of the square root is a sum of
    two squares, so [math.sqrt] has no domain error to raise. *)
Definition move_dist (pos : float * float) (x0 y0 : float) : float :=
  PrimFloat.sqrt ((pos.1 - x0) * (pos.1 - x0) + (pos.2 - y0) * (pos.2 - y0))%float.

(** What the loop mutates: [ddtdata] (its weights), [model] (its offsets) and
    the local [include_in_fit]. *)
Record reg_state : Type := {
  rs_data : DDTData;
  rs_model : DDTModel;
  rs_include : list bool;
}.

Definition set_weight (w : hypercube) (d : DDTData) : DDTData :=
  {| data := data d; weight := w; wave := wave d;
     is_final_ref := is_final_ref d; master_final_ref := master_final_ref d;
     header := header d; spaxel_size := spaxel_size d;
     nt := nt d; nw := nw d; ny := ny d; nx := nx d |}.

Definition set_ctr (i_t : nat) (pos : float * float) (m : DDTModel) : DDTModel :=
  {| galaxy := galaxy m; sn := sn m; sky := sky m;
     data_xctr := <[i_t := pos.1]> (data_xctr m);
     data_yctr := <[i_t := pos.2]> (data_yctr m);
     psf := psf m; adr_dx := adr_dx m; adr_dy := adr_dy m |}.

(** The integer a float is the value of, when it is one. *)
Definition integral_value (x : float) : option Z :=
  match Prim2SF x with
  | S754_zero _ => Some 0%Z
  | S754_finite sgn m e =>
      let v :=
        if (0 <=? e)%Z then Some (Z.pos m * 2 ^ e)%Z
        else if (Z.pos m mod 2 ^ (- e) =? 0)%Z then Some (Z.pos m / 2 ^ (- e))%Z
        else None in
      (if sgn then Z.opp else id) <$> v
  | _ => None
  end.

(** [i_t == ddtdata.master_final_ref], for an epoch index [i_t]: Python
    compares an [int] with a [float] by value, so they are equal when the
    float is the value of that very integer. *)
Definition is_master (i_t : nat) (m : pynum) : bool :=
  match m with
  | PyInt n => (Z.of_nat i_t =? n)%Z
  | PyFloat x =>
      match integral_value x with
      | Some n => (Z.of_nat i_t =? n)%Z
      | None => false
      end
  end.

(** [ddtdata.is_final_ref[i_t]] *)
Definition final_ref_at (d : DDTData) (i_t : nat) : M bool :=
  match is_final_ref d with
  | JList l =>
      let* v := or_raise IndexError (l !! i_t) in
      or_raise ValueError (truthy v)
  | _ => raise IndexError
  end.

Section registration.
Context `{!Collaborators}.

Definition call_evaluate (m : DDTModel) (i_t : nat) (xs ys : list float) : M cube :=
  let r := evaluate m i_t xs ys in
  emit (CallEvaluate i_t xs ys r);; ret r.

Definition call_fit_position (d : DDTData) (m : DDTModel) (i_t : nat) (maxiter : Z)
  : M (float * float) :=
  let r := fit_position d m i_t maxiter in
  emit (CallFitPosition i_t (weight d) maxiter r.1 r.2);; ret r.1.

(** The loop changes [ddtdata] and [model] in place, so what a pass has
    written stays written when a later line raises: the objects are a state
    that an exception leaves as it found it. *)
Definition St (A : Type) : Type := reg_state → list event * reg_state * (exn + A).

Definition st_ret {A} (a : A) : St A := λ s, ([], s, inr a).

Definition st_bind {A B} (m : St A) (f : A → St B) : St B := λ s,
  match m s with
  | (l, s', inl e) => (l, s', inl e)
  | (l, s', inr a) => match f a s' with (l', s'', r) => (l ++ l', s'', r) end
  end.

(** A computation that reads and writes none of the objects. *)
Definition st_lift {A} (m : M A) : St A := λ s, (m.1, s, m.2).

(** An assignment to the objects. *)
Definition st_put (s : reg_state) : St unit := λ _, ([], s, inr tt).

Notation "'do*' x ':=' m 'in' f" := (st_bind m (λ x, f))
  (at level 10, x pattern, m at level 100, f at level 200).

(** What a run gives to the code after it: the objects when it ends
    normally, the exception otherwise. *)
Definition forget {A} (r : list event * reg_state * (exn + A)) : M reg_state :=
  match r with
  | (l, s, inr _) => (l, inr s)
  | (l, _, inl e) => (l, inl e)
  end.

(** One pass of the loop body, lines 165-205, from the objects as [s] has
    them.  Should [DDTModel] keep the very array [data_xctr_init] as its
    [data_xctr], the write at line 202 would change [data_xctr_init[i_t]] as
    well; that entry is read at line 199 of the same pass and never again,
    so the two arrays are kept apart here. *)
Definition register_epoch_store (data_xctr_init data_yctr_init : list float)
    (i_t : nat) (s : reg_state) : list event * reg_state * (exn + unit) :=
  let d := rs_data s in
  let m := rs_model s in
  (do* fr := st_lift (final_ref_at d i_t) in
   if negb fr || is_master i_t (master_final_ref d) then st_ret tt
   else
     do* xc := st_lift (or_raise IndexError (data_xctr m !! i_t)) in
     let xcoords := centred_coords (nx d) xc in
     do* yc := st_lift (or_raise IndexError (data_yctr m !! i_t)) in
     let ycoords := centred_coords (ny d) yc in
     do* mm := st_lift (call_evaluate m i_t xcoords ycoords) in
     let tmp_m := sum_axis0 (ny d) (nx d) mm in
     do* thr := st_lift (or_raise ValueError (flux_threshold tmp_m)) in
     let mask := flux_mask thr tmp_m in
     if (mask_sum mask <? 20)%nat then st_ret tt
     else
       do* w_t := st_lift (or_raise IndexError (weight d !! i_t)) in
       let d' := set_weight (<[i_t := apply_mask mask w_t]> (weight d)) d in
       do* _ := st_put {| rs_data := d'; rs_model := m;
                          rs_include := rs_include s |} in
       do* pos := st_lift (call_fit_position d' m i_t maxiter_fit_position) in
       do* x0 := st_lift (or_raise IndexError (data_xctr_init !! i_t)) in
       do* y0 := st_lift (or_raise IndexError (data_yctr_init !! i_t)) in
       let dist := move_dist pos x0 y0 in
       if (dist <? maxmove_fit_position)%float
       then st_put {| rs_data := d'; rs_model := set_ctr i_t pos m;
                      rs_include := rs_include s |}
       else st_put {| rs_data := d'; rs_model := m;
                      rs_include := <[i_t := false]> (rs_include s) |}) s.

(** The same pass for the code after it. *)
Definition register_epoch (data_xctr_init data_yctr_init : list float)
    (i_t : nat) (s : reg_state) : M reg_state :=
  forget (register_epoch_store data_xctr_init data_yctr_init i_t s).

(** [for i in l: body(i)] on the objects. *)
Fixpoint for_each_store (body : nat → St unit) (l : list nat) : St unit :=
  match l with
  | [] => st_ret tt
  | i :: l' => do* _ := body i in for_each_store body l'
  end.

(** Lines 152-208 on the objects: the weights are put back at line 208,
    which a run that raises does not reach. *)
Definition registration_store (data_xctr_init data_yctr_init : list float)
    (d : DDTData) (m : DDTModel) : list event * reg_state * (exn + unit) :=
  let weight_orig := weight d in
  let include_in_fit := replicate (nt d) true in
  (do* _ := for_each_store (register_epoch_store data_xctr_init data_yctr_init)
              (seq 0 (nt d)) in
   λ s, st_put {| rs_data := set_weight weight_orig (rs_data s);
                  rs_model := rs_model s; rs_include := rs_include s |} s)
    {| rs_data := d; rs_model := m; rs_include := include_in_fit |}.

(** Lines 152-208: save the weights, register the final references, put
    the saved weights back. *)
Definition registration_stage (data_xctr_init data_yctr_init : list float)
    (d : DDTData) (m : DDTModel) : M reg_state :=
  let weight_orig := weight d in
  let include_in_fit := replicate (nt d) true in
  let* s := for_each (register_epoch data_xctr_init data_yctr_init)
              (seq 0 (nt d))
              {| rs_data := d; rs_model := m; rs_include := include_in_fit |} in
  ret {| rs_data := set_weight weight_orig (rs_data s);
         rs_model := rs_model s; rs_include := rs_include s |}.
End registration.

(** ** [main] (lines 20-208) *)

(** [np.isnan(data)], then [data[mask] = 0.0] and [weight[mask] = 0.0]
    (lines 64-66). *)
Definition nan_mask (a : hypercube) : list (list (list (list bool))) :=
  map4 PrimFloat.is_nan a.

Definition neutralise_nan (dw : hypercube * hypercube) : hypercube * hypercube :=
  let mask := nan_mask dw.1 in
  (zero_where mask dw.1, zero_where mask dw.2).

(** Lines 57-59: one wavelength slice, rescaled.  [10**15] and [10**(-15*2)]
    meet the float arrays as the doubles nearest to them. *)
Definition data_scale : float := 1e15%float.
Definition weight_scale : float := 0x1.4484bfeebc2ap-100%float. (* 1e-30 *)

Definition select_wavelengths (dw : hypercube * hypercube * list float)
  : hypercube * hypercube * list float :=
  (map4 (λ v, (v * data_scale)%float) (slice_wave dw.1.1),
   map4 (λ v, (v * weight_scale)%float) (slice_wave dw.1.2),
   take 1 (drop 200 dw.2)).

(** [np.deg2rad] *)
Definition deg2rad (v : float) : float := (v * 0x1.1df46a2529d39p-6)%float (* pi / 180 *).

(** Modelled from the spec: the constructor of [DDTData] ([data.py]); it
    stores its arguments, and the shape attributes are the shape of [data].
    The spatial shape is passed along because a nested list with an empty
    wavelength axis no longer shows it. *)
Definition DDTData_init (data weight : hypercube) (wave : list float)
    (is_final_ref : json) (master_final_ref : pynum) (header : gmap string json)
    (spaxel_size : json) (spatial : nat * nat) : DDTData :=
  {| data := data; weight := weight; wave := wave;
     is_final_ref := is_final_ref; master_final_ref := master_final_ref;
     header := header; spaxel_size := spaxel_size;
     nt := length data; nw := length (default [] (head data));
     ny := spatial.1; nx := spatial.2 |}.

Definition spatial_shape (a : hypercube) : nat * nat :=
  let p := default [] (default [] (head a) !! 0%nat) in
  (length p, length (default [] (head p))).

(** [data[0,0,0]] (line 55): [IndexError] when one of the first three axes
    is empty.  What is printed is not modelled. *)
Definition first_spectrum (a : hypercube) : option (list float) :=
  match a with
  | ((r :: _) :: _) :: _ => Some r
  | _ => None
  end.

(** [l[i]] for a configuration value [l] and a number [i >= 0]: a list or a
    string takes an [int] index only, a dictionary of JSON has no number
    among its keys. *)
Definition index_json (l : json) (i : pynum) : M json :=
  match l, i with
  | JList xs, PyInt n => or_raise IndexError (xs !! Z.to_nat n)
  | JStr s, PyInt n =>
      match String.get (Z.to_nat n) s with
      | Some c => ret (JStr (String c EmptyString))
      | None => raise IndexError
      end
  | JObj _, PyInt n => raise (KeyError (JInt n))
  | JObj _, PyFloat x => raise (KeyError (JFloat x))
  | _, _ => raise TypeError
  end.

(** A per-epoch array of the configuration: a flat list of numbers. *)
Definition conf_array (conf : gmap string json) (key : string) : M (list float) :=
  let* v := getitem conf key in or_raise TypeError (np_array v).

Definition conf_array_default (conf : gmap string json) (key : string)
    (d : list float) : M (list float) :=
  match conf !! key with
  | Some v => or_raise TypeError (np_array v)
  | None => ret d
  end.

Section main.
Context `{!Collaborators}.

Definition call_read_header (path : json) : M (gmap string json) :=
  emit (CallReadHeader path);; ret (read_select_header_keys path).

Definition call_read_dataset (paths : json)
  : M (hypercube * hypercube * list float) :=
  emit (CallReadDataset paths);; ret (read_dataset paths).

Definition call_params_from_gs (es : json) (waves : list float) (wave_ref : json)
  : M (list (list float) * list (list float)) :=
  emit (CallParamsFromGs es waves wave_ref);; ret (params_from_gs es waves wave_ref).

Definition call_differential_refraction (airmass p t h waves : list float)
    (wave_ref : json) : M (list (list float)) :=
  emit (CallDifferentialRefraction airmass p t h waves wave_ref);;
  ret (differential_refraction airmass p t h waves wave_ref).

Definition call_paralactic_angle (airmass ha dec : list float) (tilt : json)
  : M (list float) :=
  emit (CallParalacticAngle airmass ha dec tilt);;
  ret (calc_paralactic_angle airmass ha dec tilt).

Definition call_guess_sky (d : DDTData) (sigma : float) : M (list (list float)) :=
  emit (CallGuessSky d);; ret (guess_sky d sigma).

Definition call_fit_model_all_epoch (m : DDTModel) (d : DDTData) : M DDTModel :=
  emit (CallFitModelAllEpoch m d);; ret (fit_model_all_epoch m d).

(** Lines 29-69: configuration, data loading, NaN neutralisation. *)
Definition load_data (conf : gmap string json) : M (DDTData * json) :=
  let* apodizer :=
    or_raise TypeError (ge_two (get_default conf "FLAG_APODIZER" (JInt 0))) in
  if apodizer : bool then raise (RuntimeError "FLAG_APODIZER >= 2 not implemented")
  else
    let* spaxel_size := getitem conf "PARAM_SPAXEL_SIZE" in
    let wave_ref := get_default conf "PARAM_LAMBDA_REF" (JFloat 5000) in
    let* final_ref := getitem conf "PARAM_FINAL_REF" in
    let* master_final_ref := or_raise TypeError (sub_one final_ref) in
    let is_final_ref := get_default conf "PARAM_IS_FINAL_REF" JNull in
    let i := if ge_zero master_final_ref then master_final_ref else PyInt 0 in
    let* in_cube := getitem conf "IN_CUBE" in
    let* path := index_json in_cube i in
    let* header := call_read_header path in
    let* raw := call_read_dataset in_cube in
    let* _ := or_raise IndexError (first_spectrum raw.1.1) in
    let sel := select_wavelengths raw in
    let dw := neutralise_nan sel.1 in
    ret (DDTData_init dw.1 dw.2 sel.2 is_final_ref master_final_ref
           header spaxel_size (spatial_shape raw.1.1),
         wave_ref).

(** Lines 80-87: the PSF parameters. *)
Definition psf_parameters (conf : gmap string json) (d : DDTData) (wave_ref : json)
  : M (list (list float) * list (list float)) :=
  let* psf_type := getitem conf "PARAM_PSF_TYPE" in
  if is_str "GS-PSF" psf_type then
    let* es_psf_params := getitem conf "PARAM_PSF_ES" in
    call_params_from_gs es_psf_params (wave d) wave_ref
  else if is_str "G-PSF" psf_type then
    raise (RuntimeError "G-PSF (from FITS files) not implemented")
  else raise (RuntimeError "unrecognized PARAM_PSF_TYPE").

(** Lines 97-113: the ADR offsets, in spaxels. *)
Definition adr_offsets (conf : gmap string json) (d : DDTData) (wave_ref : json)
  : M (list (list float) * list (list float)) :=
  let* airmass := conf_array conf "PARAM_AIRMASS" in
  let n := length airmass in
  let* p := conf_array_default conf "PARAM_P" (replicate n 615%float) in
  let* t := conf_array_default conf "PARAM_T" (replicate n 2%float) in
  let* h := conf_array_default conf "PARAM_H" (replicate n 0%float) in
  let* ha := conf_array conf "PARAM_HA" in
  let* dec := conf_array conf "PARAM_DEC" in
  let* tilt := getitem conf "PARAM_MLA_TILT" in
  let* delta_r :=
    call_differential_refraction airmass p t h (wave d) wave_ref in
  let* size := or_raise TypeError (as_float (spaxel_size d)) in
  let delta_r := fmap (M:=list) (fmap (M:=list) (λ v, (v / size)%float)) delta_r in
  let* angle :=
    call_paralactic_angle airmass (deg2rad <$> ha) (deg2rad <$> dec) tilt in
  ret (zip_with (λ row a, (λ v, (- v * np_sin a)%float) <$> row) delta_r angle,
       zip_with (λ row a, (λ v, (v * np_cos a)%float) <$> row) delta_r angle).

(** Lines 121-128: the initial offsets. *)
Definition initial_ctr (conf : gmap string json) (key : string) (d : DDTData)
  : M (list float) :=
  conf_array_default conf key (replicate (nt d) 0%float).

Definition main (conf : gmap string json) : M reg_state :=
  let* loaded := load_data conf in
  let ddtdata := loaded.1 in
  let wave_ref := loaded.2 in
  let* psf_par := psf_parameters conf ddtdata wave_ref in
  let* adr := adr_offsets conf ddtdata wave_ref in
  let* skyguess := call_guess_sky ddtdata 2%float in
  let* data_xctr_init := initial_ctr conf "PARAM_TARGET_XP" ddtdata in
  let* data_yctr_init := initial_ctr conf "PARAM_TARGET_YP" ddtdata in
  let* mu_xy := getitem conf "MU_GALAXY_XY_PRIOR" in
  let* mu_wave := getitem conf "MU_GALAXY_LAMBDA_PRIOR" in
  let shape := (nt ddtdata, nw ddtdata) in
  emit (CallDDTModel shape data_xctr_init data_yctr_init);;
  let model :=
    DDTModel_init shape psf_par.1 psf_par.2 adr.1 adr.2 (spaxel_size ddtdata)
      mu_xy mu_wave data_xctr_init data_yctr_init skyguess in
  let* model := call_fit_model_all_epoch model ddtdata in
  registration_stage data_xctr_init data_yctr_init ddtdata model.
End main.

(** ** A small run to evaluate: five epochs of 5 x 5 spaxels *)

Module Demo.

(** Model flux with no contrast: every spaxel equals the minimum. *)
Definition flat_plane : plane := replicate 5 (replicate 5 1%float).

(** Model flux with one spaxel at the minimum and 24 above it. *)
Definition peaked_plane : plane :=
  [0; 1; 1; 1; 1]%float :: replicate 4 (replicate 5 1%float).

(** Epoch 0 is the master, epoch 1 renders flat, epochs 2 and 3 render
    peaked, epoch 4 is no final reference; the position search moves epoch 3
    four spaxels away and the others half a spaxel. *)
Definition collaborators : Collaborators := {|
  read_select_header_keys := λ _, ∅;
  read_dataset := λ _,
    (replicate 5 (replicate 200 (replicate 5 (replicate 5 3%float))
                  ++ [[nan; 3; 3; 3; 3]%float :: replicate 4 (replicate 5 3%float)]),
     replicate 5 (replicate 201 (replicate 5 (replicate 5 2%float))),
     (λ k : nat, float_of_Z (3000 + Z.of_nat k)) <$> seq 0 201);
  params_from_gs := λ _ _ _, ([], []);
  differential_refraction := λ airmass _ _ _ waves _,
    replicate (length airmass) (replicate (length waves) 0%float);
  calc_paralactic_angle := λ airmass _ _ _, replicate (length airmass) 0%float;
  np_sin := λ _, 0%float;
  np_cos := λ _, 1%float;
  guess_sky := λ d _, replicate (nt d) (replicate (nw d) 0%float);
  DDTModel_init := λ _ _ _ dx dy _ _ _ xc yc skyguess,
    {| galaxy := []; sn := []; sky := skyguess; data_xctr := xc; data_yctr := yc;
       psf := []; adr_dx := dx; adr_dy := dy |};
  fit_model_all_epoch := λ m _, m;
  evaluate := λ _ i_t _ _,
    match i_t with 1%nat => [flat_plane] | _ => [peaked_plane] end;
  fit_position := λ _ _ i_t _,
    match i_t with
    | 3%nat => ((4, 0)%float, true)
    | _ => ((0.5, 0.25)%float, true)
    end;
|}.

Definition ddtdata : DDTData := {|
  data := replicate 5 [replicate 5 (replicate 5 3%float)];
  weight := replicate 5 [replicate 5 (replicate 5 2%float)];
  wave := [3200%float];
  is_final_ref := JList [JBool true; JBool true; JBool true; JBool true; JBool false];
  master_final_ref := PyInt 0;
  header := ∅;
  spaxel_size := JFloat 0.5;
  nt := 5; nw := 1; ny := 5; nx := 5;
|}.

Definition zeros : list float := replicate 5 0%float.

Definition model : DDTModel := {|
  galaxy := []; sn := []; sky := []; data_xctr := zeros; data_yctr := zeros;
  psf := []; adr_dx := []; adr_dy := [];
|}.

Definition stage : M reg_state :=
  @registration_stage collaborators zeros zeros ddtdata model.

Definition stage_calls : list event := Eval vm_compute in calls stage.

Definition stage_end : reg_state :=
  Eval vm_compute in
    match outcome stage with
    | inr s => s
    | inl _ => {| rs_data := ddtdata; rs_model := model; rs_include := [] |}
    end.

(** The small data with the flag of the last epoch missing: the loop raises
    [IndexError] when it reads that flag, after epochs 2 and 3 were
    registered. *)
Definition truncated_ddtdata : DDTData := {|
  data := data ddtdata;
  weight := weight ddtdata;
  wave := wave ddtdata;
  is_final_ref := JList [JBool true; JBool true; JBool true; JBool true];
  master_final_ref := master_final_ref ddtdata;
  header := header ddtdata;
  spaxel_size := spaxel_size ddtdata;
  nt := 5; nw := 1; ny := 5; nx := 5;
|}.

Definition interrupted : list event * reg_state * (exn + unit) :=
  @registration_store collaborators zeros zeros truncated_ddtdata model.

Definition interrupted_calls : list event := Eval vm_compute in interrupted.1.1.

Definition interrupted_end : reg_state := Eval vm_compute in interrupted.1.2.

(** The weights as epoch 2, then epoch 3, are registered: the spaxel at the
    minimum is zeroed, first for epoch 2, then for epoch 3 as well. *)
Definition peaked_weights : cube :=
  [[0; 2; 2; 2; 2]%float :: replicate 4 (replicate 5 2%float)].

Definition weights_at_2 : hypercube := <[2%nat := peaked_weights]> (weight ddtdata).
Definition weights_at_3 : hypercube := <[3%nat := peaked_weights]> weights_at_2.

Definition conf : gmap string json :=
  list_to_map
    [("PARAM_SPAXEL_SIZE", JFloat 0.5);
     ("PARAM_FINAL_REF", JInt 1);
     ("PARAM_IS_FINAL_REF",
       JList [JBool true; JBool true; JBool true; JBool true; JBool false]);
     ("IN_CUBE", JList (JStr <$> ["e0.fits"; "e1.fits"; "e2.fits"; "e3.fits"; "e4.fits"]));
     ("PARAM_PSF_TYPE", JStr "GS-PSF");
     ("PARAM_PSF_ES", JList []);
     ("PARAM_AIRMASS", JList (replicate 5 (JFloat 1.5)));
     ("PARAM_HA", JList (replicate 5 (JFloat 30)));
     ("PARAM_DEC", JList (replicate 5 (JFloat 45)));
     ("PARAM_MLA_TILT", JFloat 0);
     ("MU_GALAXY_XY_PRIOR", JFloat 0.125);
     ("MU_GALAXY_LAMBDA_PRIOR", JFloat 0.25)].

(** The same file with the optional keys given. *)
Definition conf_full : gmap string json :=
  <["PARAM_LAMBDA_REF" := JFloat 4500]>
    (<["PARAM_TARGET_XP" := JList (JFloat <$> [0.5; 0; 0; 0; 0]%float)]>
       (<["PARAM_TARGET_YP" := JList (JFloat <$> [0; 0.25; 0; 0; 0]%float)]> conf)).

(** A dataset with three wavelengths only. *)
Definition short_collaborators : Collaborators := {|
  read_select_header_keys := read_select_header_keys (Collaborators := collaborators);
  read_dataset := λ _,
    ([replicate 3 [[3%float]]], [replicate 3 [[2%float]]], [3000; 3001; 3002]%float);
  params_from_gs := params_from_gs (Collaborators := collaborators);
  differential_refraction := differential_refraction (Collaborators := collaborators);
  calc_paralactic_angle := calc_paralactic_angle (Collaborators := collaborators);
  np_sin := np_sin (Collaborators := collaborators);
  np_cos := np_cos (Collaborators := collaborators);
  guess_sky := guess_sky (Collaborators := collaborators);
  DDTModel_init := DDTModel_init (Collaborators := collaborators);
  fit_model_all_epoch := fit_model_all_epoch (Collaborators := collaborators);
  evaluate := evaluate (Collaborators := collaborators);
  fit_position := fit_position (Collaborators := collaborators);
|}.

(** The same file asking for a PSF read from FITS files. *)
Definition conf_g_psf : gmap string json := <["PARAM_PSF_TYPE" := JStr "G-PSF"]> conf.

(** One epoch of three wavelengths. *)
Definition short_conf : gmap string json :=
  <["PARAM_IS_FINAL_REF" := JList [JBool true]]>
    (<["IN_CUBE" := JList [JStr "e0.fits"]]>
       (<["PARAM_AIRMASS" := JList [JFloat 1.5]]>
          (<["PARAM_HA" := JList [JFloat 30]]>
             (<["PARAM_DEC" := JList [JFloat 45]]> conf)))).

(** The model and the data the joint fit is called with, the eighth call of
    [main]. *)
Definition fit_call (C : Collaborators) (c : gmap string json)
  : DDTModel * DDTData :=
  match calls (@main C c) !! 7%nat with
  | Some (CallFitModelAllEpoch m d) => (m, d)
  | _ => (model, ddtdata)
  end.

Definition fit_model : DDTModel := Eval vm_compute in (fit_call collaborators conf).1.
Definition fit_data : DDTData := Eval vm_compute in (fit_call collaborators conf).2.
Definition short_fit_model : DDTModel :=
  Eval vm_compute in (fit_call short_collaborators short_conf).1.
Definition short_fit_data : DDTData :=
  Eval vm_compute in (fit_call short_collaborators short_conf).2.

End Demo.

(** * Reasoning about the monad *)

Lemma bind_inr {A B} (m : M A) (f : A → M B) log b :
  bind m f = (log, inr b) →
  ∃ l1 a l2, m = (l1, inr a) ∧ f a = (l2, inr b) ∧ log = l1 ++ l2.
Proof.
  destruct m as [l1 [e|a]]; simpl; [discriminate|].
  destruct (f a) as [l2 r] eqn:Hf. intros [= <- ->]. eauto 6.
Qed.

Lemma bind_inl {A B} (m : M A) (f : A → M B) l e :
  m = (l, inl e) → bind m f = (l, inl e).
Proof. by intros ->. Qed.

Lemma bind_ok {A B} (m : M A) (f : A → M B) l a :
  m = (l, inr a) → bind m f = (l ++ (f a).1, (f a).2).
Proof. intros ->. simpl. by destruct (f a). Qed.

Lemma or_raise_inr {A} e (o : option A) log a :
  or_raise e o = (log, inr a) → o = Some a ∧ log = [].
Proof. destruct o; simpl; [|discriminate]. by intros [= <- <-]. Qed.

Lemma ret_inr {A} (a b : A) log : ret a = (log, inr b) → a = b ∧ log = [].
Proof. by intros [= <- <-]. Qed.

Lemma emit_inr ev log u : emit ev = (log, inr u) → log = [ev].
Proof. by intros [= <-]. Qed.

(** Take a successful run apart, bind by bind. *)
Ltac inv_run :=
  repeat match goal with
  | H : bind _ _ = (_, inr _) |- _ =>
      let l1 := fresh "l" in let a := fresh "a" in let l2 := fresh "l" in
      let H1 := fresh "H" in let H2 := fresh "H" in let H3 := fresh "H" in
      apply bind_inr in H as (l1 & a & l2 & H1 & H2 & H3)
  | H : or_raise _ _ = (_, inr _) |- _ =>
      let H1 := fresh "H" in let H2 := fresh "H" in
      apply or_raise_inr in H as [H1 H2]
  | H : ret _ = (_, inr _) |- _ =>
      let H1 := fresh "H" in let H2 := fresh "H" in
      apply ret_inr in H as [H1 H2]
  | H : emit _ = (_, inr _) |- _ => apply emit_inr in H
  | H : raise _ = (_, inr _) |- _ => discriminate H
  end.

(** A property of every call a computation makes. *)
Definition all_calls {A} (P : event → Prop) (m : M A) : Prop := Forall P (calls m).

Lemma all_calls_ret {A} P (a : A) : all_calls P (ret a).
Proof. constructor. Qed.

Lemma all_calls_raise {A} P e : all_calls P (raise (A:=A) e).
Proof. constructor. Qed.

Lemma all_calls_or_raise {A} P e (o : option A) : all_calls P (or_raise e o).
Proof. destruct o; constructor. Qed.

Lemma all_calls_emit P ev : P ev → all_calls P (emit ev).
Proof. intros. by repeat constructor. Qed.

Lemma all_calls_bind {A B} P (m : M A) (f : A → M B) :
  all_calls P m →
  (∀ l a, m = (l, inr a) → all_calls P (f a)) →
  all_calls P (bind m f).
Proof.
  unfold all_calls, calls. destruct m as [l [e|a]]; simpl; [done|].
  intros Hm Hf. specialize (Hf l a eq_refl). destruct (f a) as [l' r].
  simpl in *. by apply Forall_app.
Qed.

Lemma all_calls_if {A} P (b : bool) (m1 m2 : M A) :
  all_calls P m1 → all_calls P m2 → all_calls P (if b then m1 else m2).
Proof. by destruct b. Qed.

Ltac all_calls_step :=
  first
    [ apply all_calls_ret | apply all_calls_raise | apply all_calls_or_raise
    | apply all_calls_if
    | apply all_calls_bind; [|intros ? ? ?] ].

(** * The registration stage *)

Lemma final_ref_at_calls d i : calls (final_ref_at d i) = [].
Proof.
  unfold final_ref_at. destruct (is_final_ref d); try done.
  destruct (l !! i) as [v|]; [|done]. simpl. by destruct (truthy v).
Qed.

(** ** Runs on the objects *)

Lemma st_bind_cases {A B} (m : St A) (f : A → St B) s log s' r :
  st_bind m f s = (log, s', r) →
  (∃ e, m s = (log, s', inl e) ∧ r = inl e) ∨
  (∃ l1 s1 a l2, m s = (l1, s1, inr a) ∧ f a s1 = (l2, s', r) ∧ log = l1 ++ l2).
Proof.
  unfold st_bind. destruct (m s) as [[l1 s1] [e|a]].
  - intros [= <- <- <-]. left. by exists e.
  - destruct (f a s1) as [[l2 s2] r2] eqn:Hf. intros [= <- <- <-]. right.
    by exists l1, s1, a, l2.
Qed.

Lemma st_bind_inr {A B} (m : St A) (f : A → St B) s log s' b :
  st_bind m f s = (log, s', inr b) →
  ∃ l1 s1 a l2, m s = (l1, s1, inr a) ∧ f a s1 = (l2, s', inr b) ∧ log = l1 ++ l2.
Proof. intros [(e & _ & [=])|?]%st_bind_cases. done. Qed.

Lemma st_lift_eq {A} (m : M A) s log s' r :
  st_lift m s = (log, s', r) → m = (log, r) ∧ s' = s.
Proof. unfold st_lift. destruct m. by intros [= <- <- <-]. Qed.

Lemma st_put_eq s0 s log s' r :
  st_put s0 s = (log, s', r) → log = [] ∧ s' = s0 ∧ r = inr tt.
Proof. by intros [= <- <- <-]. Qed.

Lemma st_ret_eq {A} (a : A) s log s' r :
  st_ret a s = (log, s', r) → log = [] ∧ s' = s ∧ r = inr a.
Proof. by intros [= <- <- <-]. Qed.

Lemma forget_inr {A} (r : list event * reg_state * (exn + A)) log s :
  forget r = (log, inr s) → ∃ a, r = (log, s, inr a).
Proof. destruct r as [[l s0] [e|a]]; intros [= <- <-]. eauto. Qed.

Lemma calls_forget {A} (r : list event * reg_state * (exn + A)) :
  calls (forget r) = r.1.1.
Proof. by destruct r as [[l s0] [e|a]]. Qed.

(** Take a successful run on the objects apart. *)
Ltac inv_store :=
  repeat match goal with
  | H : st_bind _ _ _ = (_, _, inr _) |- _ =>
      let l1 := fresh "l" in let s1 := fresh "s" in let a := fresh "a" in
      let l2 := fresh "l" in
      let H1 := fresh "H" in let H2 := fresh "H" in let H3 := fresh "H" in
      apply st_bind_inr in H as (l1 & s1 & a & l2 & H1 & H2 & H3)
  | H : st_lift _ _ = (_, _, _) |- _ =>
      let H1 := fresh "H" in let H2 := fresh "H" in
      apply st_lift_eq in H as [H1 H2]
  | H : st_put _ _ = (_, _, _) |- _ =>
      let H1 := fresh "H" in let H2 := fresh "H" in let H3 := fresh "H" in
      apply st_put_eq in H as (H1 & H2 & H3)
  | H : st_ret _ _ = (_, _, _) |- _ =>
      let H1 := fresh "H" in let H2 := fresh "H" in let H3 := fresh "H" in
      apply st_ret_eq in H as (H1 & H2 & H3)
  end.

Section registration_facts.
Context `{!Collaborators}.
Variables data_xctr_init data_yctr_init : list float.

(** Epoch [i] is a final reference other than the master, and its model
    flux [mm], rendered at [xs], [ys], has the masking threshold [thr]. *)
Definition attempted (i : nat) (s : reg_state)
    (xs ys : list float) (mm : cube) (thr : float) : Prop :=
  final_ref_at (rs_data s) i = ([], inr true) ∧
  is_master i (master_final_ref (rs_data s)) = false ∧
  (∃ xc, data_xctr (rs_model s) !! i = Some xc ∧
         xs = centred_coords (nx (rs_data s)) xc) ∧
  (∃ yc, data_yctr (rs_model s) !! i = Some yc ∧
         ys = centred_coords (ny (rs_data s)) yc) ∧
  mm = evaluate (rs_model s) i xs ys ∧
  flux_threshold (sum_axis0 (ny (rs_data s)) (nx (rs_data s)) mm) = Some thr.

Definition flux_of (s : reg_state) (mm : cube) : plane :=
  sum_axis0 (ny (rs_data s)) (nx (rs_data s)) mm.

Definition masked_data (i : nat) (mask : list (list bool)) (w_t : cube)
    (d : DDTData) : DDTData :=
  set_weight (<[i := apply_mask mask w_t]> (weight d)) d.

(** The four ways through the loop body. *)
Inductive epoch_step (i : nat) (s : reg_state) : list event → reg_state → Prop :=
| step_passed fr :
    final_ref_at (rs_data s) i = ([], inr fr) →
    negb fr || is_master i (master_final_ref (rs_data s)) = true →
    epoch_step i s [] s
| step_skipped xs ys mm thr :
    attempted i s xs ys mm thr →
    (mask_sum (flux_mask thr (flux_of s mm)) < 20)%nat →
    epoch_step i s [CallEvaluate i xs ys mm] s
| step_moved xs ys mm thr w_t x0 y0 d' r :
    attempted i s xs ys mm thr →
    (20 ≤ mask_sum (flux_mask thr (flux_of s mm)))%nat →
    weight (rs_data s) !! i = Some w_t →
    d' = masked_data i (flux_mask thr (flux_of s mm)) w_t (rs_data s) →
    r = fit_position d' (rs_model s) i maxiter_fit_position →
    data_xctr_init !! i = Some x0 →
    data_yctr_init !! i = Some y0 →
    (move_dist r.1 x0 y0 <? maxmove_fit_position)%float = true →
    epoch_step i s
      [CallEvaluate i xs ys mm;
       CallFitPosition i (weight d') maxiter_fit_position r.1 r.2]
      {| rs_data := d'; rs_model := set_ctr i r.1 (rs_model s);
         rs_include := rs_include s |}
| step_excluded xs ys mm thr w_t x0 y0 d' r :
    attempted i s xs ys mm thr →
    (20 ≤ mask_sum (flux_mask thr (flux_of s mm)))%nat →
    weight (rs_data s) !! i = Some w_t →
    d' = masked_data i (flux_mask thr (flux_of s mm)) w_t (rs_data s) →
    r = fit_position d' (rs_model s) i maxiter_fit_position →
    data_xctr_init !! i = Some x0 →
    data_yctr_init !! i = Some y0 →
    (move_dist r.1 x0 y0 <? maxmove_fit_position)%float = false →
    epoch_step i s
      [CallEvaluate i xs ys mm;
       CallFitPosition i (weight d') maxiter_fit_position r.1 r.2]
      {| rs_data := d'; rs_model := rs_model s;
         rs_include := <[i := false]> (rs_include s) |}.

Lemma register_epoch_step i s log s' :
  register_epoch data_xctr_init data_yctr_init i s = (log, inr s') →
  epoch_step i s log s'.
Proof.
  unfold register_epoch. intros [u Hrun]%forget_inr.
  unfold register_epoch_store in Hrun.
  apply st_bind_inr in Hrun as (l1 & s1 & fr & l2 & Hfr & Hrun & ->).
  apply st_lift_eq in Hfr as [Hfr ->].
  assert (l1 = []) as ->.
  { pose proof (final_ref_at_calls (rs_data s) i) as Hc.
    by rewrite Hfr in Hc. }
  cbn [app].
  destruct (negb fr || is_master i (master_final_ref (rs_data s))) eqn:Hskip.
  { apply st_ret_eq in Hrun as (-> & -> & _). by eapply step_passed. }
  apply orb_false_iff in Hskip as [Hfr' Hm].
  apply negb_false_iff in Hfr' as ->.
  unfold call_evaluate in Hrun.
  do 4 (apply st_bind_inr in Hrun as (? & ? & ? & ? & ?%st_lift_eq & Hrun & ->)).
  destruct_and!. inv_run. subst. cbn [app].
  match goal with
  | Hx : data_xctr _ !! i = Some ?xc, Hy : data_yctr _ !! i = Some ?yc,
    Ht : flux_threshold (sum_axis0 _ _ ?mm) = Some ?thr |- _ =>
      assert (attempted i s (centred_coords (nx (rs_data s)) xc)
                (centred_coords (ny (rs_data s)) yc) mm thr) as Hatt
        by (repeat split; eauto)
  end.
  destruct (mask_sum _ <? 20)%nat eqn:Hsum in Hrun.
  { apply st_ret_eq in Hrun as (-> & -> & _). apply Nat.ltb_lt in Hsum.
    by eapply step_skipped. }
  apply Nat.ltb_ge in Hsum. unfold call_fit_position in Hrun.
  apply st_bind_inr in Hrun as (? & ? & ? & ? & ?%st_lift_eq & Hrun & ->).
  apply st_bind_inr in Hrun as (? & ? & ? & ? & ?%st_put_eq & Hrun & ->).
  do 3 (apply st_bind_inr in Hrun as (? & ? & ? & ? & ?%st_lift_eq & Hrun & ->)).
  destruct_and!. inv_run. subst. cbn [app].
  destruct (move_dist _ _ _ <? _)%float eqn:Hd in Hrun;
    apply st_put_eq in Hrun as (-> & -> & _).
  - eapply step_moved; eauto.
  - eapply step_excluded; eauto.
Qed.
End registration_facts.

(** ** Runs of the loop *)

(** The epoch a registration call is about. *)
Definition event_epoch (ev : event) : option nat :=
  match ev with
  | CallEvaluate i _ _ _ => Some i
  | CallFitPosition i _ _ _ _ => Some i
  | _ => None
  end.

(** Two states hold the same things for epoch [i]. *)
Definition agree_at (i : nat) (s1 s2 : reg_state) : Prop :=
  weight (rs_data s1) !! i = weight (rs_data s2) !! i ∧
  data_xctr (rs_model s1) !! i = data_xctr (rs_model s2) !! i ∧
  data_yctr (rs_model s1) !! i = data_yctr (rs_model s2) !! i ∧
  rs_include s1 !! i = rs_include s2 !! i.

Lemma agree_at_refl i s : agree_at i s s.
Proof. by repeat split. Qed.

Lemma agree_at_trans i s1 s2 s3 : agree_at i s1 s2 → agree_at i s2 s3 → agree_at i s1 s3.
Proof.
  intros (? & ? & ? & ?) (? & ? & ? & ?). repeat split; congruence.
Qed.

Lemma set_weight_set_weight w w' d : set_weight w (set_weight w' d) = set_weight w d.
Proof. done. Qed.

Lemma set_weight_id d : set_weight (weight d) d = d.
Proof. by destruct d. Qed.

(** The loop writes nothing of [ddtdata] but its weights. *)
Definition same_but_weight (d d' : DDTData) : Prop := d' = set_weight (weight d') d.

Lemma same_but_weight_refl d : same_but_weight d d.
Proof. unfold same_but_weight. by rewrite set_weight_id. Qed.

Lemma same_but_weight_trans d1 d2 d3 :
  same_but_weight d1 d2 → same_but_weight d2 d3 → same_but_weight d1 d3.
Proof.
  unfold same_but_weight. intros H12 H23. rewrite H23 at 1. rewrite H12.
  apply set_weight_set_weight.
Qed.

Section loop_facts.
Context `{!Collaborators}.
Variables data_xctr_init data_yctr_init : list float.

Local Abbreviation epoch_step := (epoch_step data_xctr_init data_yctr_init).

Inductive steps : list nat → reg_state → list event → reg_state → Prop :=
| steps_nil s : steps [] s [] s
| steps_cons i l s log1 s1 log2 s2 :
    epoch_step i s log1 s1 →
    steps l s1 log2 s2 →
    steps (i :: l) s (log1 ++ log2) s2.

Lemma for_each_steps l s log s' :
  for_each (register_epoch data_xctr_init data_yctr_init) l s = (log, inr s') →
  steps l s log s'.
Proof.
  revert s log. induction l as [|i l IH]; intros s log; simpl.
  - intros [= <- <-]. constructor.
  - intros Hrun. apply bind_inr in Hrun as (l1 & s1 & l2 & H1 & H2 & ->).
    econstructor; [by apply register_epoch_step|by apply IH].
Qed.

(** *** One pass *)

Lemma step_data i s log s' :
  epoch_step i s log s' → same_but_weight (rs_data s) (rs_data s').
Proof.
  destruct 1; subst; simpl; try apply same_but_weight_refl; done.
Qed.

Lemma step_frame i j s log s' :
  epoch_step j s log s' → i ≠ j → agree_at i s s'.
Proof.
  destruct 1; intros Hne; subst; try apply agree_at_refl;
    repeat split; simpl; by rewrite ?list_lookup_insert_ne.
Qed.

Lemma step_events j s log s' ev :
  epoch_step j s log s' → ev ∈ log → event_epoch ev = Some j.
Proof.
  destruct 1; intros Hev;
    repeat (apply elem_of_cons in Hev as [->|Hev]; [done|]);
    by apply elem_of_nil in Hev.
Qed.

Lemma step_lengths j s log s' :
  epoch_step j s log s' → length (rs_include s') = length (rs_include s).
Proof. destruct 1; simpl; by rewrite ?length_insert. Qed.

(** *** Whole runs *)

Lemma steps_data l s log s' :
  steps l s log s' → same_but_weight (rs_data s) (rs_data s').
Proof.
  induction 1; [apply same_but_weight_refl|].
  eapply same_but_weight_trans; [by eapply step_data|done].
Qed.

Lemma steps_lengths l s log s' :
  steps l s log s' → length (rs_include s') = length (rs_include s).
Proof.
  induction 1; [done|]. etrans; [done|]. by eapply step_lengths.
Qed.

(** Epochs the loop does not visit are left alone and make no call. *)
Lemma steps_frame i l s log s' :
  steps l s log s' → i ∉ l →
  agree_at i s s' ∧ ∀ ev, ev ∈ log → event_epoch ev ≠ Some i.
Proof.
  induction 1 as [|j l s log1 s1 log2 s2 Hstep Hsteps IH]; intros Hi.
  - split; [apply agree_at_refl|]. set_solver.
  - apply not_elem_of_cons in Hi as [Hne Hi].
    destruct (IH Hi) as [Hag Hev]. split.
    + eapply agree_at_trans; [by eapply step_frame|done].
    + intros ev [Hin|Hin]%elem_of_app; [|by apply Hev].
      rewrite (step_events _ _ _ _ _ Hstep Hin). congruence.
Qed.

(** An epoch visited once: its pass starts from what the loop began with
    for that epoch, and what the pass leaves for it is what the loop ends
    with; the calls about it are the calls of that pass. *)
Lemma steps_visit i l s log s' :
  steps l s log s' → NoDup l → i ∈ l →
  ∃ s1 log1 s2,
    epoch_step i s1 log1 s2 ∧
    same_but_weight (rs_data s) (rs_data s1) ∧
    agree_at i s s1 ∧ agree_at i s2 s' ∧
    length (rs_include s1) = length (rs_include s) ∧
    (∀ ev, ev ∈ log1 → ev ∈ log) ∧
    (∀ ev, ev ∈ log → event_epoch ev = Some i → ev ∈ log1).
Proof.
  induction 1 as [|j l s log1 s1 log2 s2 Hstep Hsteps IH]; intros Hnd Hi.
  - by apply elem_of_nil in Hi.
  - apply NoDup_cons in Hnd as [Hj Hnd].
    destruct (decide (i = j)) as [->|Hne].
    + destruct (steps_frame j _ _ _ _ Hsteps Hj) as [Hag Hev].
      exists s, log1, s1. split_and!; try done.
      * apply same_but_weight_refl.
      * intros ev Hin. apply elem_of_app. by left.
      * intros ev [Hin|Hin]%elem_of_app Hep; [done|]. by destruct (Hev ev Hin Hep).
    + apply elem_of_cons in Hi as [?|Hi]; [done|].
      destruct (IH Hnd Hi) as (sa & la & sb & Hst & Hd & Ha & Hb & Hlen & Hsub & Hev).
      exists sa, la, sb. split_and!; try done.
      * eapply same_but_weight_trans; [by eapply step_data|done].
      * eapply agree_at_trans; [by eapply step_frame|done].
      * rewrite Hlen. by eapply step_lengths.
      * intros ev Hin. apply elem_of_app. right. by apply Hsub.
      * intros ev [Hin|Hin]%elem_of_app Hep; [|by apply Hev].
        rewrite (step_events _ _ _ _ _ Hstep Hin) in Hep. congruence.
Qed.

(** *** The stage *)

Definition initial_state (d : DDTData) (m : DDTModel) : reg_state :=
  {| rs_data := d; rs_model := m; rs_include := replicate (nt d) true |}.

Lemma registration_stage_steps d m log s :
  registration_stage data_xctr_init data_yctr_init d m = (log, inr s) →
  ∃ s', steps (seq 0 (nt d)) (initial_state d m) log s' ∧
        s = {| rs_data := set_weight (weight d) (rs_data s');
               rs_model := rs_model s'; rs_include := rs_include s' |}.
Proof.
  unfold registration_stage. intros Hrun.
  apply bind_inr in Hrun as (l1 & s' & l2 & Hloop & [= <- <-] & ->).
  exists s'. rewrite app_nil_r. split; [|done]. by apply for_each_steps.
Qed.
End loop_facts.

(** * Facts about float comparisons *)



(** * Indexing the arrays *)

Lemma get2_fmap {A B} (f : A → B) (a : list (list A)) y x :
  get2 (fmap (M:=list) (fmap (M:=list) f) a) y x = f <$> get2 a y x.
Proof.
  unfold get2. rewrite list_lookup_fmap. destruct (a !! y) as [r|]; simpl; [|done].
  by rewrite list_lookup_fmap.
Qed.

Lemma get2_zip_with {A B C} (f : A → B → C) (a : list (list A)) (b : list (list B)) y x :
  get2 (zip_with (zip_with f) a b) y x =
  match get2 a y x, get2 b y x with
  | Some u, Some v => Some (f u v)
  | _, _ => None
  end.
Proof.
  unfold get2. rewrite lookup_zip_with.
  destruct (a !! y) as [r|]; simpl; [|done].
  destruct (b !! y) as [r'|]; simpl; [|by destruct (r !! x)].
  rewrite lookup_zip_with.
  destruct (r !! x); simpl; [|done]. by destruct (r' !! x).
Qed.

Lemma get4_map4 {A B} (f : A → B) a t l y x :
  get4 (map4 f a) t l y x = f <$> get4 a t l y x.
Proof.
  unfold get4, get3, map4. rewrite list_lookup_fmap.
  destruct (a !! t) as [c|]; simpl; [|done]. rewrite list_lookup_fmap.
  destruct (c !! l) as [p|]; simpl; [|done]. apply get2_fmap.
Qed.

Lemma get4_zip4 {A B C} (f : A → B → C) a b t l y x :
  get4 (zip4 f a b) t l y x =
  match get4 a t l y x, get4 b t l y x with
  | Some u, Some v => Some (f u v)
  | _, _ => None
  end.
Proof.
  unfold get4, get3, zip4. rewrite lookup_zip_with.
  destruct (a !! t) as [c|]; simpl; [|done].
  destruct (b !! t) as [c'|]; simpl; [|by destruct (c !! l) as [p|]; [destruct (get2 p y x)|]].
  rewrite lookup_zip_with.
  destruct (c !! l) as [p|]; simpl; [|done].
  destruct (c' !! l) as [p'|]; simpl; [|by destruct (get2 p y x)].
  apply get2_zip_with.
Qed.

Lemma get2_flux_mask thr tmp_m y x :
  get2 (flux_mask thr tmp_m) y x = (λ v, (thr <? v)%float) <$> get2 tmp_m y x.
Proof. apply get2_fmap. Qed.

Lemma get3_apply_mask mask w l y x :
  get3 (apply_mask mask w) l y x =
  match get3 w l y x, get2 mask y x with
  | Some v, Some b => Some (v * b2f b)%float
  | _, _ => None
  end.
Proof.
  unfold get3, apply_mask. rewrite list_lookup_fmap.
  destruct (w !! l) as [p|]; simpl; [|done]. apply get2_zip_with.
Qed.

(** * What the registration stage guarantees *)

Section stage_facts.
Context `{!Collaborators}.
Variables data_xctr_init data_yctr_init : list float.

Local Abbreviation stage := (registration_stage data_xctr_init data_yctr_init).
Local Abbreviation step := (epoch_step data_xctr_init data_yctr_init).

Lemma stage_weight_restored d m log s :
stage d m = (log, inr s) → weight (rs_data s) = weight d.
Proof.
intros (s' & _ & ->)%registration_stage_steps. done.
Qed.

Lemma stage_event_in_range d m log s ev i :
stage d m = (log, inr s) → ev ∈ log → event_epoch ev = Some i → (i < nt d)%nat.
Proof.
intros (s' & Hsteps & _)%registration_stage_steps Hev Hep.
destruct (decide (i ∈ seq 0 (nt d))) as [Hin|Hout].
- apply elem_of_seq in Hin. lia.
- destruct (steps_frame _ _ i _ _ _ _ Hsteps Hout) as [_ Hno].
  by destruct (Hno ev Hev).
Qed.

(** The pass of the loop over epoch [i], seen from the whole stage. *)
Lemma stage_visit d m log s i :
stage d m = (log, inr s) → (i < nt d)%nat →
∃ s1 log1 s2,
  step i s1 log1 s2 ∧
  same_but_weight d (rs_data s1) ∧
  weight (rs_data s1) !! i = weight d !! i ∧
  data_xctr (rs_model s1) !! i = data_xctr m !! i ∧
  data_yctr (rs_model s1) !! i = data_yctr m !! i ∧
  rs_include s1 !! i = Some true ∧
  (i < length (rs_include s1))%nat ∧
  data_xctr (rs_model s) !! i = data_xctr (rs_model s2) !! i ∧
  data_yctr (rs_model s) !! i = data_yctr (rs_model s2) !! i ∧
  rs_include s !! i = rs_include s2 !! i ∧
  (∀ ev, ev ∈ log1 → ev ∈ log) ∧
  (∀ ev, ev ∈ log → event_epoch ev = Some i → ev ∈ log1).
Proof.
intros (s' & Hsteps & ->)%registration_stage_steps Hi.
assert (i ∈ seq 0 (nt d)) as Hin by (apply elem_of_seq; lia).
destruct (steps_visit _ _ i _ _ _ _ Hsteps (NoDup_seq _ _) Hin)
  as (s1 & log1 & s2 & Hstep & Hd & (Hw & Hx & Hy & Hinc) & (_ & Hx' & Hy' & Hinc')
      & Hlen & Hsub & Hev).
simpl in *. rewrite length_replicate in Hlen.
exists s1, log1, s2. split_and!; try done.
- rewrite <- Hinc. by apply lookup_replicate_2.
- lia.
Qed.

(** The shape the flux map is built with does not change during the stage. *)
Lemma flux_of_same d s mm :
same_but_weight d (rs_data s) → flux_of s mm = sum_axis0 (ny d) (nx d) mm.
Proof. unfold flux_of. by intros ->. Qed.

(** The weights [fit_position] is given for its epoch: the epoch's weights
  from before the stage under the epoch's own mask. *)
Lemma fit_position_row d m log s i W it pos conv :
stage d m = (log, inr s) →
CallFitPosition i W it pos conv ∈ log →
∃ xs ys mm thr w_t,
  CallEvaluate i xs ys mm ∈ log ∧
  flux_threshold (sum_axis0 (ny d) (nx d) mm) = Some thr ∧
  (20 ≤ mask_sum (flux_mask thr (sum_axis0 (ny d) (nx d) mm)))%nat ∧
  weight d !! i = Some w_t ∧
  W !! i = Some (apply_mask (flux_mask thr (sum_axis0 (ny d) (nx d) mm)) w_t).
Proof.
intros Hrun Hev.
pose proof (stage_event_in_range _ _ _ _ _ i Hrun Hev eq_refl) as Hi.
destruct (stage_visit _ _ _ _ i Hrun Hi)
  as (s1 & log1 & s2 & Hstep & Hd & Hw & _ & _ & _ & _ & _ & _ & _ & Hsub & Hin).
specialize (Hin _ Hev eq_refl).
destruct Hstep as [fr ? ?|xs ys mm thr Hatt Hsum
                  |xs ys mm thr w_t x0 y0 d' r Hatt Hsum Hwt -> -> Hx0 Hy0 Hdist
                  |xs ys mm thr w_t x0 y0 d' r Hatt Hsum Hwt -> -> Hx0 Hy0 Hdist].
- by apply elem_of_nil in Hin.
- apply list_elem_of_singleton in Hin. discriminate.
- apply elem_of_cons in Hin as [Heq|Hin]; [discriminate|].
  apply list_elem_of_singleton in Hin. injection Hin as -> -> -> ->.
  destruct Hatt as (_ & _ & _ & _ & _ & Hthr).
  fold (flux_of s1 mm) in Hthr.
  rewrite (flux_of_same d) in Hsum, Hthr by done.
  pose proof (lookup_lt_Some _ _ _ Hwt) as Hlt. rewrite Hw in Hwt.
  exists xs, ys, mm, thr, w_t. split_and!; try done.
  + apply Hsub. apply elem_of_cons. by left.
  + rewrite <- (flux_of_same d s1 mm Hd). simpl.
    by apply list_lookup_insert_eq.
- apply elem_of_cons in Hin as [Heq|Hin]; [discriminate|].
  apply list_elem_of_singleton in Hin. injection Hin as -> -> -> ->.
  destruct Hatt as (_ & _ & _ & _ & _ & Hthr).
  fold (flux_of s1 mm) in Hthr.
  rewrite (flux_of_same d) in Hsum, Hthr by done.
  pose proof (lookup_lt_Some _ _ _ Hwt) as Hlt. rewrite Hw in Hwt.
  exists xs, ys, mm, thr, w_t. split_and!; try done.
  + apply Hsub. apply elem_of_cons. by left.
  + rewrite <- (flux_of_same d s1 mm Hd). simpl.
    by apply list_lookup_insert_eq.
Qed.
End stage_facts.

(** * The stage on the objects *)

(** The weights [ddtdata] holds after the calls of [log] when it held [w0]
    before them: the weights the last call of [fit_position] was given,
    which the pass had just written into [ddtdata]. *)
Fixpoint weights_seen (log : list event) (w0 : hypercube) : hypercube :=
  match log with
  | [] => w0
  | CallFitPosition _ W _ _ _ :: log' => weights_seen log' W
  | _ :: log' => weights_seen log' w0
  end.

Lemma or_raise_log {A} e (o : option A) log r : or_raise e o = (log, r) → log = [].
Proof. destruct o; by intros [= <- _]. Qed.

Lemma final_ref_at_log d i log r : final_ref_at d i = (log, r) → log = [].
Proof. intros Hrun. pose proof (final_ref_at_calls d i) as Hc. by rewrite Hrun in Hc. Qed.

Section store_facts.
Context `{!Collaborators}.
Variables data_xctr_init data_yctr_init : list float.

Local Abbreviation pass := (register_epoch_store data_xctr_init data_yctr_init).
Local Abbreviation stage := (registration_stage data_xctr_init data_yctr_init).
Local Abbreviation store := (registration_store data_xctr_init data_yctr_init).

(** What a pass of the loop has called and written when it ends, normally or
    with an exception: nothing at all, [evaluate] alone, or [evaluate], then
    the epoch's masked weights written into [ddtdata], then [fit_position]
    on them. *)
Inductive pass_log (i : nat) (s : reg_state) : list event → reg_state → Prop :=
| pass_idle : pass_log i s [] s
| pass_rendered xs ys mm : pass_log i s [CallEvaluate i xs ys mm] s
| pass_masked xs ys mm thr w_i pos conv s' :
    flux_threshold (flux_of s mm) = Some thr →
    weight (rs_data s) !! i = Some w_i →
    rs_data s' = masked_data i (flux_mask thr (flux_of s mm)) w_i (rs_data s) →
    pass_log i s
      [CallEvaluate i xs ys mm;
       CallFitPosition i (weight (rs_data s')) maxiter_fit_position pos conv] s'.

Lemma register_epoch_store_pass i s log s' r :
  pass i s = (log, s', r) → pass_log i s log s'.
Proof.
  unfold register_epoch_store. intros Hrun.
  apply st_bind_cases in Hrun
    as [(? & [Hm ->]%st_lift_eq & ->)|(? & ? & fr & ? & [Hm ->]%st_lift_eq & Hrun & ->)];
    apply final_ref_at_log in Hm as ->; [constructor|]. cbn [app].
  destruct (negb fr || _).
  { apply st_ret_eq in Hrun as (-> & -> & _). constructor. }
  apply st_bind_cases in Hrun
    as [(? & [Hm ->]%st_lift_eq & ->)|(? & ? & xc & ? & [Hm ->]%st_lift_eq & Hrun & ->)];
    apply or_raise_log in Hm as ->; [constructor|]. cbn [app].
  apply st_bind_cases in Hrun
    as [(? & [Hm ->]%st_lift_eq & ->)|(? & ? & yc & ? & [Hm ->]%st_lift_eq & Hrun & ->)];
    apply or_raise_log in Hm as ->; [constructor|]. cbn [app].
  apply st_bind_cases in Hrun
    as [(? & [Hm ->]%st_lift_eq & ->)|(? & ? & mm & ? & [Hm ->]%st_lift_eq & Hrun & ->)];
    unfold call_evaluate in Hm; injection Hm as <- ?; [discriminate|]. simplify_eq.
  cbn [app].
  apply st_bind_cases in Hrun
    as [(? & [Hm ->]%st_lift_eq & ->)|(? & ? & thr & ? & [Hthr ->]%st_lift_eq & Hrun & ->)].
  { apply or_raise_log in Hm as ->. constructor. }
  pose proof (or_raise_log _ _ _ _ Hthr) as ->.
  apply or_raise_inr in Hthr as [Hthr _]. cbn [app].
  destruct (mask_sum _ <? 20)%nat.
  { apply st_ret_eq in Hrun as (-> & -> & _). constructor. }
  apply st_bind_cases in Hrun
    as [(? & [Hm ->]%st_lift_eq & ->)|(? & ? & w_i & ? & [Hw ->]%st_lift_eq & Hrun & ->)].
  { apply or_raise_log in Hm as ->. constructor. }
  pose proof (or_raise_log _ _ _ _ Hw) as ->.
  apply or_raise_inr in Hw as [Hw _]. cbn [app].
  apply st_bind_cases in Hrun
    as [(? & (_ & _ & [=])%st_put_eq & _)|(? & ? & ? & ? & (-> & -> & _)%st_put_eq & Hrun & ->)].
  cbn [app].
  apply st_bind_cases in Hrun
    as [(? & [Hm ->]%st_lift_eq & ->)|(? & ? & pos & ? & [Hm ->]%st_lift_eq & Hrun & ->)];
    unfold call_fit_position in Hm; injection Hm as <- ?; [discriminate|]. simplify_eq.
  set (d' := set_weight _ (rs_data s)) in *.
  assert (∀ s2, rs_data s2 = d' →
            pass_log i s
              [CallEvaluate i (centred_coords (nx (rs_data s)) xc)
                 (centred_coords (ny (rs_data s)) yc)
                 (evaluate (rs_model s) i (centred_coords (nx (rs_data s)) xc)
                    (centred_coords (ny (rs_data s)) yc));
               CallFitPosition i (weight d') maxiter_fit_position
                 (fit_position d' (rs_model s) i maxiter_fit_position).1
                 (fit_position d' (rs_model s) i maxiter_fit_position).2] s2) as Hdone.
  { intros s2 Hs2. rewrite <- Hs2. eapply pass_masked; [exact Hthr|exact Hw|].
    by rewrite Hs2. }
  cbn [app].
  apply st_bind_cases in Hrun
    as [(? & [Hm ->]%st_lift_eq & ->)|(? & ? & x0 & ? & [Hm ->]%st_lift_eq & Hrun & ->)];
    apply or_raise_log in Hm as ->; rewrite ?app_nil_r; [by apply Hdone|].
  apply st_bind_cases in Hrun
    as [(? & [Hm ->]%st_lift_eq & ->)|(? & ? & y0 & ? & [Hm ->]%st_lift_eq & Hrun & ->)];
    apply or_raise_log in Hm as ->; rewrite ?app_nil_r; [by apply Hdone|].
  cbn [app] in *.
  destruct (_ <? _)%float; apply st_put_eq in Hrun as (-> & -> & _);
    rewrite ?app_nil_r; by apply Hdone.
Qed.

Lemma weights_seen_app l1 l2 w :
  weights_seen (l1 ++ l2) w = weights_seen l2 (weights_seen l1 w).
Proof.
  revert w. induction l1 as [|ev l1 IH]; intros w; [done|].
  destruct ev; simpl; apply IH.
Qed.

Lemma pass_log_data i s log s' :
  pass_log i s log s' → same_but_weight (rs_data s) (rs_data s').
Proof.
  intros [| |xs ys mm thr w_i pos conv s2 _ _ Hd]; try apply same_but_weight_refl.
  unfold same_but_weight. by rewrite Hd.
Qed.

(** What holds of the loop over the epochs [l], run from [s] to [s'] with
    the calls [log]: [ddtdata] has changed in its weights only, and holds
    the weights the last call of [fit_position] was given; the weights of
    the epochs outside [l] are untouched; and each call of [fit_position]
    is for an epoch of [l] and was given what [ddtdata] held by then, with
    the epoch's own weights replaced by their masked version, which
    [ddtdata] still holds at the end. *)
Definition loop_weights (l : list nat) (s : reg_state) (log : list event)
    (s' : reg_state) : Prop :=
  same_but_weight (rs_data s) (rs_data s') ∧
  weight (rs_data s') = weights_seen log (weight (rs_data s)) ∧
  (∀ j, j ∉ l → weight (rs_data s') !! j = weight (rs_data s) !! j) ∧
  ∀ n j W it pos conv,
    log !! n = Some (CallFitPosition j W it pos conv) →
    j ∈ l ∧
    ∃ xs ys mm thr w_j,
      CallEvaluate j xs ys mm ∈ log ∧
      flux_threshold (flux_of s mm) = Some thr ∧
      weight (rs_data s) !! j = Some w_j ∧
      W = <[j := apply_mask (flux_mask thr (flux_of s mm)) w_j]>
            (weights_seen (take n log) (weight (rs_data s))) ∧
      weight (rs_data s') !! j = W !! j.

Lemma loop_weights_nil l s : loop_weights l s [] s.
Proof.
  split_and!; [apply same_but_weight_refl|done|done|].
  intros n j W it pos conv Hn. by rewrite lookup_nil in Hn.
Qed.

Lemma flux_of_pass s s' mm :
  same_but_weight (rs_data s) (rs_data s') → flux_of s' mm = flux_of s mm.
Proof. unfold flux_of. by intros ->. Qed.

Lemma loop_weights_cons i l s log1 s1 log2 s2 :
  i ∉ l →
  pass_log i s log1 s1 →
  loop_weights l s1 log2 s2 →
  loop_weights (i :: l) s (log1 ++ log2) s2.
Proof.
  intros Hi Hpass (Hd & Hw & Hframe & Hcalls).
  pose proof (pass_log_data _ _ _ _ Hpass) as Hd1.
  destruct Hpass as [|xs ys mm|xs ys mm thr w_i pos conv s1 Hthr Hwi Hs1].
  - split_and!; try done.
    + intros j [_ Hj]%not_elem_of_cons. by apply Hframe.
    + intros n j W it pos conv Hn.
      destruct (Hcalls _ _ _ _ _ _ Hn) as (Hj & Hrest).
      split; [by apply elem_of_cons; right|done].
  - split_and!; try done.
    + intros j [_ Hj]%not_elem_of_cons. by apply Hframe.
    + intros [|n] j W it pos conv Hn; [discriminate|]. simpl in Hn.
      destruct (Hcalls _ _ _ _ _ _ Hn)
        as (Hj & xs' & ys' & mm' & thr' & w_j & Hev & Hthr' & Hwj & HW & Hend).
      split; [by apply elem_of_cons; right|].
      exists xs', ys', mm', thr', w_j. split_and!; try done.
      by apply elem_of_cons; right.
  - assert (weight (rs_data s1)
            = <[i := apply_mask (flux_mask thr (flux_of s mm)) w_i]> (weight (rs_data s)))
      as Hw1 by (by rewrite Hs1).
    split_and!.
    + by eapply same_but_weight_trans.
    + by rewrite Hw.
    + intros j [Hne Hj]%not_elem_of_cons. rewrite Hframe by done. rewrite Hw1.
      apply list_lookup_insert_ne. congruence.
    + intros [|[|n]] j W it pos' conv' Hn.
      * discriminate.
      * injection Hn as <- <- <- <- <-. split; [by apply elem_of_cons; left|].
        exists xs, ys, mm, thr, w_i. split_and!; try done.
        -- apply elem_of_cons. by left.
        -- by apply Hframe.
      * simpl in Hn.
        destruct (Hcalls _ _ _ _ _ _ Hn)
          as (Hj & xs' & ys' & mm' & thr' & w_j & Hev & Hthr' & Hwj & HW & Hend).
        split; [by apply elem_of_cons; right|].
        assert (i ≠ j) as Hne by (intros ->; done).
        exists xs', ys', mm', thr', w_j.
        rewrite (flux_of_pass s s1) in Hthr', HW by done.
        split_and!; try done.
        -- apply elem_of_cons. right. by apply elem_of_cons; right.
        -- rewrite Hw1 in Hwj. by rewrite list_lookup_insert_ne in Hwj.
Qed.

Lemma for_each_store_weights l s log s' r :
  NoDup l →
  for_each_store pass l s = (log, s', r) → loop_weights l s log s'.
Proof.
  intros Hl. revert s log. induction Hl as [|i l Hi Hl IH]; intros s log; simpl.
  - intros (-> & -> & _)%st_ret_eq. apply loop_weights_nil.
  - intros [(e & Hpass & ->)|(l1 & s1 & [] & l2 & Hpass & Hrest & ->)]%st_bind_cases.
    + rewrite <- (app_nil_r log). eapply loop_weights_cons; [done| |apply loop_weights_nil].
      by eapply register_epoch_store_pass.
    + eapply loop_weights_cons; [done| |by apply IH].
      by eapply register_epoch_store_pass.
Qed.

(** The stage of the claims is the stage on the objects with the objects
    of a run that raised put aside. *)
Lemma for_each_forget l s :
  for_each (register_epoch data_xctr_init data_yctr_init) l s
  = forget (for_each_store pass l s).
Proof.
  revert s. induction l as [|i l IH]; intros s; [done|]. simpl.
  unfold register_epoch, st_bind, bind.
  destruct (pass i s) as [[l1 s1] [e|[]]]; simpl; [done|].
  rewrite IH. by destruct (for_each_store pass l s1) as [[l2 s2] [e|[]]].
Qed.

Lemma registration_stage_forget d m : stage d m = forget (store d m).
Proof.
  unfold registration_stage, registration_store. rewrite for_each_forget.
  unfold st_bind, bind.
  by destruct (for_each_store pass (seq 0 (nt d)) _) as [[l s] [e|[]]].
Qed.

(** The stage on the objects, whichever way it ends. *)
Lemma registration_store_weights d m log s r :
  store d m = (log, s, r) →
  (∀ u, r = inr u → rs_data s = d) ∧
  ∃ s1,
    loop_weights (seq 0 (nt d)) (initial_state d m) log s1 ∧
    (∀ e, r = inl e → s = s1).
Proof.
  unfold registration_store.
  intros [(e & Hloop & ->)|(l1 & s1 & [] & l2 & Hloop & Hput & ->)]%st_bind_cases.
  - split; [done|]. exists s. split; [|done].
    eapply for_each_store_weights; [apply NoDup_seq|done].
  - apply st_put_eq in Hput as (-> & -> & ->). rewrite app_nil_r.
    pose proof (for_each_store_weights _ _ _ _ _ (NoDup_seq _ _) Hloop) as Hfacts.
    split.
    + intros _ _. destruct Hfacts as (Hd & _). simpl in *.
      rewrite Hd, set_weight_set_weight. apply set_weight_id.
    + exists s1. split; [done|]. by intros e.
Qed.

End store_facts.
(** * The claims about the registration stage *)

Section registration_claims.
Context `{!Collaborators}.
Variables data_xctr_init data_yctr_init : list float.

Local Abbreviation stage := (registration_stage data_xctr_init data_yctr_init).
Local Abbreviation step := (epoch_step data_xctr_init data_yctr_init).

(** C1 (as amended).  Whenever [fit_position] is called for an epoch, the
    weights it is given for that epoch are the weights from before the stage
    multiplied, spaxel by spaxel and at every wavelength, by 1 where the
    summed model flux is strictly greater than
    [min(flux) + 2.5 * MAD(flux)] and by 0 everywhere else: a spaxel is
    masked exactly when its flux is not strictly above the threshold, so a
    spaxel at the threshold is masked too. *)
Theorem registration_mask_rule d m log s i W it pos conv :
  stage d m = (log, inr s) →
  CallFitPosition i W it pos conv ∈ log →
  ∃ xs ys mm thr,
    CallEvaluate i xs ys mm ∈ log ∧
    flux_threshold (sum_axis0 (ny d) (nx d) mm) = Some thr ∧
    ∀ l y x w v,
      get4 (weight d) i l y x = Some w →
      get2 (sum_axis0 (ny d) (nx d) mm) y x = Some v →
      get4 W i l y x = Some (w * b2f (thr <? v))%float.
Proof.
  intros Hrun Hev.
  destruct (fit_position_row _ _ _ _ _ _ _ _ _ _ _ Hrun Hev)
    as (xs & ys & mm & thr & w_t & Hcall & Hthr & _ & Hw & HW).
  exists xs, ys, mm, thr. split_and!; try done.
  intros l y x w v Hget Hflux. unfold get4 in *. rewrite Hw in Hget. rewrite HW.
  rewrite get3_apply_mask, Hget, get2_flux_mask, Hflux. done.
Qed.


(** C3 (as amended).  For an epoch whose model flux was rendered and whose
    mask keeps fewer than 20 spaxels, [fit_position] is not called, the
    model's offsets for the epoch are what they were, and nothing records
    the skip: [include_in_fit] stays true for the epoch, as for an epoch
    that was registered and accepted. *)
Theorem skip_on_insufficient_support d m log s i xs ys mm thr :
  stage d m = (log, inr s) →
  CallEvaluate i xs ys mm ∈ log →
  flux_threshold (sum_axis0 (ny d) (nx d) mm) = Some thr →
  (mask_sum (flux_mask thr (sum_axis0 (ny d) (nx d) mm)) < 20)%nat →
  (∀ W it pos conv, CallFitPosition i W it pos conv ∉ log) ∧
  data_xctr (rs_model s) !! i = data_xctr m !! i ∧
  data_yctr (rs_model s) !! i = data_yctr m !! i ∧
  rs_include s !! i = Some true.
Proof.
  intros Hrun Hev Hthr Hsum.
  pose proof (stage_event_in_range _ _ _ _ _ _ _ i Hrun Hev eq_refl) as Hi.
  destruct (stage_visit _ _ _ _ _ _ i Hrun Hi)
    as (s1 & log1 & s2 & Hstep & Hd & _ & Hx & Hy & Hinc & Hlen & Hx' & Hy' & Hinc'
        & _ & Hin).
  pose proof (Hin _ Hev eq_refl) as Hev1.
  destruct Hstep as [fr ? ?|xs' ys' mm' thr' Hatt Hsum'
                    |xs' ys' mm' thr' w_t x0 y0 d' r Hatt Hsum' Hwt -> -> Hx0 Hy0 Hdist
                    |xs' ys' mm' thr' w_t x0 y0 d' r Hatt Hsum' Hwt -> -> Hx0 Hy0 Hdist].
  - by apply elem_of_nil in Hev1.
  - split_and!; try congruence.
    intros W it pos conv Hfit. specialize (Hin _ Hfit eq_refl).
    apply list_elem_of_singleton in Hin. discriminate.
  - apply elem_of_cons in Hev1 as [Heq|Hev1];
      [|apply list_elem_of_singleton in Hev1; discriminate].
    injection Heq as -> -> ->.
    destruct Hatt as (_ & _ & _ & _ & _ & Hthr').
    fold (flux_of s1 mm') in Hthr'.
    rewrite (flux_of_same d) in Hsum', Hthr' by done.
    rewrite Hthr in Hthr'. injection Hthr' as <-. lia.
  - apply elem_of_cons in Hev1 as [Heq|Hev1];
      [|apply list_elem_of_singleton in Hev1; discriminate].
    injection Heq as -> -> ->.
    destruct Hatt as (_ & _ & _ & _ & _ & Hthr').
    fold (flux_of s1 mm') in Hthr'.
    rewrite (flux_of_same d) in Hsum', Hthr' by done.
    rewrite Hthr in Hthr'. injection Hthr' as <-. lia.
Qed.

(** C4 (as amended).  The stage is run on the objects, which keep what was
    written into them when a line raises; its calls and its outcome are
    those of the stage the other claims speak of.  When the stage ends
    normally, whichever way each epoch went, [ddtdata] is what it was before
    the stage, weights included.  When it ends with an exception, line 208
    is not reached: [ddtdata] holds the weights the last call of
    [fit_position] was given, and every epoch registered by then keeps its
    masked weights.  Each call of [fit_position] is given the weights
    [ddtdata] held by then, the masks of the epochs registered before it
    included, with the weights of its own epoch replaced by that epoch's
    weights from before the stage under that epoch's own mask. *)
Theorem weight_masking_scope d m log s r :
  registration_store data_xctr_init data_yctr_init d m = (log, s, r) →
  stage d m = forget (log, s, r) ∧
  (∀ u, r = inr u → rs_data s = d) ∧
  (∀ e, r = inl e → weight (rs_data s) = weights_seen log (weight d)) ∧
  ∀ n j W it pos conv,
    log !! n = Some (CallFitPosition j W it pos conv) →
    ∃ xs ys mm thr w_j,
      CallEvaluate j xs ys mm ∈ log ∧
      flux_threshold (sum_axis0 (ny d) (nx d) mm) = Some thr ∧
      weight d !! j = Some w_j ∧
      W = <[j := apply_mask (flux_mask thr (sum_axis0 (ny d) (nx d) mm)) w_j]>
            (weights_seen (take n log) (weight d)) ∧
      (∀ e, r = inl e → weight (rs_data s) !! j = W !! j).
Proof.
  intros Hrun.
  destruct (registration_store_weights _ _ _ _ _ _ _ Hrun)
    as (Hok & s1 & (Hd & Hw & _ & Hcalls) & Herr).
  split_and!.
  - by rewrite registration_stage_forget, Hrun.
  - done.
  - intros e He. by rewrite (Herr e He).
  - intros n j W it pos conv Hn.
    destruct (Hcalls _ _ _ _ _ _ Hn)
      as (_ & xs & ys & mm & thr & w_j & Hev & Hthr & Hwj & HW & Hend).
    exists xs, ys, mm, thr, w_j. split_and!; try done.
    intros e He. by rewrite (Herr e He).
Qed.

(** An epoch the loop passes over: not a final reference, or the master. *)
Definition passed_over (d : DDTData) (i : nat) : Prop :=
  final_ref_at d i = ([], inr false) ∨ is_master i (master_final_ref d) = true.

Lemma passed_over_same_but_weight d d' i :
  same_but_weight d d' → passed_over d i → passed_over d' i.
Proof. unfold passed_over, final_ref_at. by intros ->. Qed.

Lemma step_passed_over i s log s' :
  step i s log s' → passed_over (rs_data s) i → log = [] ∧ s' = s.
Proof.
  intros Hstep Hpass.
  destruct Hstep as [fr ? ?|xs ys mm thr Hatt Hsum
                    |xs ys mm thr w_t x0 y0 d' r Hatt Hsum Hwt -> -> Hx0 Hy0 Hdist
                    |xs ys mm thr w_t x0 y0 d' r Hatt Hsum Hwt -> -> Hx0 Hy0 Hdist];
    [done|..];
    destruct Hatt as (Hfr & Hm & _); destruct Hpass as [Hp|Hp]; congruence.
Qed.

Lemma steps_passed_over i l s log s' :
  steps data_xctr_init data_yctr_init l s log s' →
  passed_over (rs_data s) i →
  data_xctr (rs_model s') !! i = data_xctr (rs_model s) !! i ∧
  data_yctr (rs_model s') !! i = data_yctr (rs_model s) !! i ∧
  ∀ ev, ev ∈ log → event_epoch ev ≠ Some i.
Proof.
  induction 1 as [|j l s log1 s1 log2 s2 Hstep Hsteps IH]; intros Hpass.
  - split_and!; try done. intros ev Hev. by apply elem_of_nil in Hev.
  - destruct IH as (Hx & Hy & Hev).
    { eapply passed_over_same_but_weight; [by eapply step_data|done]. }
    destruct (decide (i = j)) as [->|Hne].
    + destruct (step_passed_over _ _ _ _ Hstep Hpass) as [-> ->].
      split_and!; try done.
    + destruct (step_frame _ _ i _ _ _ _ Hstep Hne) as (_ & Hx1 & Hy1 & _).
      split_and!; try congruence.
      intros ev [Hin|Hin]%elem_of_app; [|by apply Hev].
      rewrite (step_events _ _ _ _ _ _ _ Hstep Hin). congruence.
Qed.

(** C6.  For an epoch that is not a final reference, or that is the master
    final reference, the model's offsets are never written: after any number
    of passes of the loop, and when the stage ends, they are the values from
    before the stage, and no call of the stage is about that epoch. *)
Theorem offsets_of_other_epochs_untouched d m i :
  passed_over d i →
  (∀ k log s',
     for_each (register_epoch data_xctr_init data_yctr_init) (seq 0 k)
       (initial_state d m) = (log, inr s') →
     data_xctr (rs_model s') !! i = data_xctr m !! i ∧
     data_yctr (rs_model s') !! i = data_yctr m !! i) ∧
  (∀ log s,
     stage d m = (log, inr s) →
     data_xctr (rs_model s) !! i = data_xctr m !! i ∧
     data_yctr (rs_model s) !! i = data_yctr m !! i ∧
     ∀ ev, ev ∈ log → event_epoch ev ≠ Some i).
Proof.
  intros Hpass. split.
  - intros k log s' Hloop%for_each_steps.
    destruct (steps_passed_over i _ _ _ _ Hloop Hpass) as (? & ? & _). done.
  - intros log s (s' & Hsteps & ->)%registration_stage_steps.
    by apply (steps_passed_over i _ _ _ _ Hsteps Hpass).
Qed.
End registration_claims.

(** ** The stage on the small run *)

Lemma demo_evaluate_1 :
  CallEvaluate 1 (centred_coords 5 0) (centred_coords 5 0) [Demo.flat_plane]
    ∈ Demo.stage_calls.
Proof. apply (list_elem_of_lookup_2 _ 0). vm_compute. reflexivity. Qed.

Lemma demo_fit_position_2 :
  CallFitPosition 2 Demo.weights_at_2 100 (0.5, 0.25)%float true ∈ Demo.stage_calls.
Proof. apply (list_elem_of_lookup_2 _ 2). vm_compute. reflexivity. Qed.


(** C1, on the small run: epoch 2 is registered with the weights of its
    spaxels multiplied by 1 or 0 according to the threshold. *)
Lemma registration_mask_rule_witness :
  Demo.stage = (Demo.stage_calls, inr Demo.stage_end) ∧
  CallFitPosition 2 Demo.weights_at_2 100 (0.5, 0.25)%float true ∈ Demo.stage_calls ∧
  ∃ xs ys mm thr,
    CallEvaluate 2 xs ys mm ∈ Demo.stage_calls ∧
    flux_threshold (sum_axis0 5 5 mm) = Some thr ∧
    ∀ l y x w v,
      get4 (weight Demo.ddtdata) 2 l y x = Some w →
      get2 (sum_axis0 5 5 mm) y x = Some v →
      get4 Demo.weights_at_2 2 l y x = Some (w * b2f (thr <? v))%float.
Proof.
  split; [vm_compute; reflexivity|]. split; [exact demo_fit_position_2|].
  apply (registration_mask_rule (H := Demo.collaborators) Demo.zeros Demo.zeros
           Demo.ddtdata Demo.model Demo.stage_calls Demo.stage_end 2
           Demo.weights_at_2 100 (0.5, 0.25)%float true).
  - vm_compute; reflexivity.
  - exact demo_fit_position_2.
Defined.

(** C1 as stated fails on the small run: for epoch 2 the spaxel (0, 0) has
    flux 0 and the threshold is 0, so the spaxel is not below the threshold
    but at it, [fit_position] is called, and the spaxel's weight, 2 before
    the stage, is 0 in the weights the call is given. *)
Lemma mask_rule_counterexample :
  ∃ thr v,
    CallFitPosition 2 Demo.weights_at_2 100 (0.5, 0.25)%float true ∈ calls Demo.stage ∧
    CallEvaluate 2 (centred_coords 5 0) (centred_coords 5 0) [Demo.peaked_plane]
      ∈ calls Demo.stage ∧
    flux_threshold (sum_axis0 5 5 [Demo.peaked_plane]) = Some thr ∧
    get2 (sum_axis0 5 5 [Demo.peaked_plane]) 0 0 = Some v ∧
    (v <? thr)%float = false ∧
    (thr <=? v)%float = true ∧
    get4 (weight Demo.ddtdata) 2 0 0 0 = Some 2%float ∧
    get4 Demo.weights_at_2 2 0 0 0 = Some 0%float.
Proof.
  exists 0%float, 0%float. split_and!; try (vm_compute; reflexivity).
  - apply (list_elem_of_lookup_2 _ 2). vm_compute. reflexivity.
  - apply (list_elem_of_lookup_2 _ 1). vm_compute. reflexivity.
Qed.


(** C3, on the small run: epoch 1 renders flat, no spaxel passes the
    threshold, and the epoch is skipped. *)
Lemma skip_on_insufficient_support_witness :
  Demo.stage = (Demo.stage_calls, inr Demo.stage_end) ∧
  CallEvaluate 1 (centred_coords 5 0) (centred_coords 5 0) [Demo.flat_plane]
    ∈ Demo.stage_calls ∧
  flux_threshold (sum_axis0 5 5 [Demo.flat_plane]) = Some 1%float ∧
  (mask_sum (flux_mask 1 (sum_axis0 5 5 [Demo.flat_plane])) < 20)%nat ∧
  (∀ W it pos conv, CallFitPosition 1 W it pos conv ∉ Demo.stage_calls) ∧
  data_xctr (rs_model Demo.stage_end) !! 1%nat = data_xctr Demo.model !! 1%nat ∧
  data_yctr (rs_model Demo.stage_end) !! 1%nat = data_yctr Demo.model !! 1%nat ∧
  rs_include Demo.stage_end !! 1%nat = Some true.
Proof.
  split; [vm_compute; reflexivity|]. split; [exact demo_evaluate_1|].
  split; [vm_compute; reflexivity|]. split; [vm_compute; lia|].
  apply (skip_on_insufficient_support (H := Demo.collaborators) Demo.zeros Demo.zeros
           Demo.ddtdata Demo.model Demo.stage_calls Demo.stage_end 1
           (centred_coords 5 0) (centred_coords 5 0) [Demo.flat_plane] 1%float).
  - vm_compute; reflexivity.
  - exact demo_evaluate_1.
  - vm_compute; reflexivity.
  - vm_compute; lia.
Defined.

(** C3 as stated fails on the small run: epoch 1 is skipped for want of
    support and epoch 2 is registered and accepted, and the only per-epoch
    flag the stage keeps, [include_in_fit], is true for both: the skip is
    recorded nowhere. *)
Lemma skip_flag_counterexample :
  ∃ s,
    outcome Demo.stage = inr s ∧
    CallEvaluate 1 (centred_coords 5 0) (centred_coords 5 0) [Demo.flat_plane]
      ∈ calls Demo.stage ∧
    (mask_sum (flux_mask 1 (sum_axis0 5 5 [Demo.flat_plane])) < 20)%nat ∧
    (∀ W it pos conv, CallFitPosition 1 W it pos conv ∉ calls Demo.stage) ∧
    CallFitPosition 2 Demo.weights_at_2 100 (0.5, 0.25)%float true ∈ calls Demo.stage ∧
    data_xctr (rs_model s) !! 2%nat = Some 0.5%float ∧
    rs_include s !! 1%nat = Some true ∧
    rs_include s !! 2%nat = Some true ∧
    rs_data s = Demo.ddtdata.
Proof.
  exists Demo.stage_end. split_and!; try (vm_compute; reflexivity).
  - apply (list_elem_of_lookup_2 _ 0). vm_compute. reflexivity.
  - vm_compute; lia.
  - intros W it pos conv Hin. change (calls Demo.stage) with Demo.stage_calls in Hin.
    unfold Demo.stage_calls in Hin.
    repeat (apply elem_of_cons in Hin as [Heq|Hin]; [discriminate Heq|]).
    by apply elem_of_nil in Hin.
  - apply (list_elem_of_lookup_2 _ 2). vm_compute. reflexivity.
Qed.

(** C4 as stated fails twice.  On the small data with the flag of the last
    epoch missing, the stage raises [IndexError] after epochs 2 and 3 were
    registered, and [ddtdata] is left with their weights masked.  And on the
    small run, which completes, the weights [fit_position] is given for
    epoch 3 hold the weights of epoch 2 under the mask of epoch 2. *)
Lemma weight_masking_counterexample :
  (Demo.interrupted = (Demo.interrupted_calls, Demo.interrupted_end, inl IndexError) ∧
   outcome (@registration_stage Demo.collaborators Demo.zeros Demo.zeros
              Demo.truncated_ddtdata Demo.model) = inl IndexError ∧
   get4 (weight Demo.truncated_ddtdata) 2 0 0 0 = Some 2%float ∧
   get4 (weight (rs_data Demo.interrupted_end)) 2 0 0 0 = Some 0%float ∧
   get4 (weight Demo.truncated_ddtdata) 3 0 0 0 = Some 2%float ∧
   get4 (weight (rs_data Demo.interrupted_end)) 3 0 0 0 = Some 0%float) ∧
  (Demo.stage = (Demo.stage_calls, inr Demo.stage_end) ∧
   CallFitPosition 3 Demo.weights_at_3 100 (4, 0)%float true ∈ Demo.stage_calls ∧
   get4 (weight Demo.ddtdata) 2 0 0 0 = Some 2%float ∧
   get4 Demo.weights_at_3 2 0 0 0 = Some 0%float).
Proof.
  split; split_and!; try (vm_compute; reflexivity).
  apply (list_elem_of_lookup_2 _ 4). vm_compute. reflexivity.
Qed.

(** C4 as amended, on the run that raises: the weights [ddtdata] is left
    with are those [fit_position] was given for epoch 3, and they are the
    weights [fit_position] was given for epoch 2 with the row of epoch 3
    masked. *)
Lemma weight_masking_scope_witness :
  Demo.interrupted = (Demo.interrupted_calls, Demo.interrupted_end, inl IndexError) ∧
  Demo.interrupted_calls !! 4%nat
    = Some (CallFitPosition 3 Demo.weights_at_3 100 (4, 0)%float true) ∧
  weight (rs_data Demo.interrupted_end)
    = weights_seen Demo.interrupted_calls (weight Demo.truncated_ddtdata) ∧
  weight (rs_data Demo.interrupted_end) !! 3%nat = Demo.weights_at_3 !! 3%nat ∧
  ∃ mask w_3,
    weight Demo.truncated_ddtdata !! 3%nat = Some w_3 ∧
    Demo.weights_at_3
      = <[3%nat := apply_mask mask w_3]>
          (weights_seen (take 4 Demo.interrupted_calls) (weight Demo.truncated_ddtdata)).
Proof.
  split; [vm_compute; reflexivity|]. split; [vm_compute; reflexivity|].
  destruct (weight_masking_scope (H := Demo.collaborators) Demo.zeros Demo.zeros
              Demo.truncated_ddtdata Demo.model Demo.interrupted_calls
              Demo.interrupted_end (inl IndexError))
    as (_ & _ & Hw & Hcalls).
  - vm_compute; reflexivity.
  - destruct (Hcalls 4%nat 3%nat Demo.weights_at_3 100%Z (4, 0)%float true)
      as (xs & ys & mm & thr & w_3 & _ & _ & Hw3 & HW & Hrow).
    + vm_compute; reflexivity.
    + split; [by eapply Hw|]. split; [by eapply Hrow|].
      exists (flux_mask thr (sum_axis0 5 5 mm)), w_3. by split.
Defined.

(** C6, on the small run: epoch 4 is no final reference. *)
Lemma offsets_of_other_epochs_untouched_witness :
  passed_over Demo.ddtdata 4 ∧
  data_xctr (rs_model Demo.stage_end) !! 4%nat = data_xctr Demo.model !! 4%nat ∧
  data_yctr (rs_model Demo.stage_end) !! 4%nat = data_yctr Demo.model !! 4%nat.
Proof.
  assert (passed_over Demo.ddtdata 4) as Hpass by (left; vm_compute; reflexivity).
  split; [exact Hpass|].
  destruct (offsets_of_other_epochs_untouched (H := Demo.collaborators)
              Demo.zeros Demo.zeros Demo.ddtdata Demo.model 4 Hpass) as [_ Hend].
  destruct (Hend Demo.stage_calls Demo.stage_end) as (Hx & Hy & _).
  - vm_compute; reflexivity.
  - by split.
Defined.

(** * [main] before the fit *)

(** The calls that read the input files. *)
Definition is_read_call (ev : event) : Prop :=
  match ev with
  | CallReadHeader _ | CallReadDataset _ => True
  | _ => False
  end.

(** The calls that fit: the joint fit and the registration. *)
Definition is_fit_call (ev : event) : Prop :=
  match ev with
  | CallFitModelAllEpoch _ _ | CallEvaluate _ _ _ _ | CallFitPosition _ _ _ _ _ => True
  | _ => False
  end.

(** The reference wavelength a call is given, when it takes one. *)
Definition wave_ref_of (ev : event) : option json :=
  match ev with
  | CallParamsFromGs _ _ w => Some w
  | CallDifferentialRefraction _ _ _ _ _ w => Some w
  | _ => None
  end.

(** The calls into [psf] and [adr], given the reference wavelength [wave_ref]. *)
Definition is_setup_call (wave_ref : json) (ev : event) : Prop :=
  match ev with
  | CallParamsFromGs _ _ w | CallDifferentialRefraction _ _ _ _ _ w => w = wave_ref
  | CallParalacticAngle _ _ _ _ => True
  | _ => False
  end.

Lemma all_calls_impl {A} (P Q : event → Prop) (m : M A) :
  (∀ ev, P ev → Q ev) → all_calls P m → all_calls Q m.
Proof. intros HPQ Hm. by eapply Forall_impl. Qed.

Lemma all_calls_index_json P l i : all_calls P (index_json l i).
Proof.
  destruct l, i; simpl; try apply all_calls_raise; try apply all_calls_or_raise.
  destruct (String.get _ _); constructor.
Qed.

Lemma all_calls_conf_array P conf key : all_calls P (conf_array conf key).
Proof. unfold conf_array, getitem. repeat all_calls_step. Qed.

Lemma all_calls_conf_array_default P conf key d :
  all_calls P (conf_array_default conf key d).
Proof. unfold conf_array_default. destruct (conf !! key); all_calls_step. Qed.

Lemma all_calls_for_each {S} P (body : nat → S → M S) l s :
  (∀ i s, all_calls P (body i s)) → all_calls P (for_each body l s).
Proof.
  intros Hbody. revert s. induction l as [|i l IH]; intros s; simpl.
  - apply all_calls_ret.
  - apply all_calls_bind; [apply Hbody|]. intros. apply IH.
Qed.

Lemma all_calls_final_ref_at P d i : all_calls P (final_ref_at d i).
Proof. unfold all_calls. rewrite final_ref_at_calls. constructor. Qed.

(** The same for runs on the objects. *)
Definition all_calls_st {A} (P : event → Prop) (m : St A) : Prop :=
  ∀ s, Forall P (m s).1.1.

Lemma all_calls_st_ret {A} P (a : A) : all_calls_st P (st_ret a).
Proof. intros s. constructor. Qed.

Lemma all_calls_st_put P s0 : all_calls_st P (st_put s0).
Proof. intros s. constructor. Qed.

Lemma all_calls_st_lift {A} P (m : M A) : all_calls P m → all_calls_st P (st_lift m).
Proof. intros Hm s. apply Hm. Qed.

Lemma all_calls_st_bind {A B} P (m : St A) (f : A → St B) :
  all_calls_st P m → (∀ a, all_calls_st P (f a)) → all_calls_st P (st_bind m f).
Proof.
  intros Hm Hf s. unfold st_bind. specialize (Hm s).
  destruct (m s) as [[l s1] [e|a]]; simpl in *; [done|].
  specialize (Hf a s1). destruct (f a s1) as [[l2 s2] r]. simpl in *.
  by apply Forall_app.
Qed.

Lemma all_calls_st_if {A} P (b : bool) (m1 m2 : St A) :
  all_calls_st P m1 → all_calls_st P m2 → all_calls_st P (if b then m1 else m2).
Proof. by destruct b. Qed.

Lemma all_calls_st_for_each P (body : nat → St unit) l :
  (∀ i, all_calls_st P (body i)) → all_calls_st P (for_each_store body l).
Proof.
  intros Hbody. induction l as [|i l IH]; simpl.
  - apply all_calls_st_ret.
  - apply all_calls_st_bind; [apply Hbody|]. intros _. apply IH.
Qed.

Ltac all_calls_st_step :=
  first
    [ apply all_calls_st_ret | apply all_calls_st_put
    | apply all_calls_st_if
    | apply all_calls_st_bind; [|intros ?]
    | apply all_calls_st_lift ].

Section main_facts.
Context `{!Collaborators}.

(** One pass of the loop calls [evaluate] and [fit_position] only. *)
Lemma register_epoch_store_calls xi yi i s :
  Forall (λ ev, event_epoch ev ≠ None) (register_epoch_store xi yi i s).1.1.
Proof.
  unfold register_epoch_store.
  match goal with |- Forall _ (?f s).1.1 => enough (all_calls_st (λ ev, event_epoch ev ≠ None) f) as Hf by apply Hf end.
  apply all_calls_st_bind; [apply all_calls_st_lift, all_calls_final_ref_at|].
  intros fr. unfold call_evaluate, call_fit_position.
  repeat first [ all_calls_st_step | all_calls_step | by apply all_calls_emit ].
Qed.

(** The registration stage calls [evaluate] and [fit_position] only. *)
Lemma registration_stage_calls xi yi d m :
  all_calls (λ ev, event_epoch ev ≠ None) (registration_stage xi yi d m).
Proof.
  unfold registration_stage. apply all_calls_bind; [|intros; apply all_calls_ret].
  apply all_calls_for_each. intros i s. unfold register_epoch, all_calls.
  rewrite calls_forget. apply register_epoch_store_calls.
Qed.

(** Loading the data reads the files and calls nothing else. *)
Lemma load_data_calls conf : all_calls is_read_call (load_data conf).
Proof.
  unfold load_data, getitem, call_read_header, call_read_dataset.
  repeat first [ all_calls_step | apply all_calls_index_json
               | by apply all_calls_emit ].
Qed.

(** What [load_data] returns: the reference wavelength of the configuration
    and the selected slice of the dataset with its NaNs neutralised. *)
Lemma load_data_result conf l d wave_ref :
  load_data conf = (l, inr (d, wave_ref)) →
  wave_ref = get_default conf "PARAM_LAMBDA_REF" (JFloat 5000) ∧
  ∃ in_cube,
    conf !! "IN_CUBE" = Some in_cube ∧
    data d = (neutralise_nan (select_wavelengths (read_dataset in_cube)).1).1 ∧
    weight d = (neutralise_nan (select_wavelengths (read_dataset in_cube)).1).2 ∧
    wave d = (select_wavelengths (read_dataset in_cube)).2.
Proof.
  unfold load_data, getitem, call_read_header, call_read_dataset. intros Hrun.
  apply bind_inr in Hrun as (l1 & apodizer & l2 & _ & Hrun & _).
  destruct apodizer; [discriminate|].
  inv_run. subst.
  match goal with H : (_, _) = (_, _) |- _ => injection H as <- <- end.
  split; [done|]. eexists. split; [done|]. done.
Qed.

Lemma is_str_true s v : is_str s v = true → v = JStr s.
Proof.
  destruct v; simpl; try discriminate. by intros ->%String.eqb_eq.
Qed.

(** An unsupported PSF type stops [main] at line 85 or 87, a missing one at
    line 80. *)
Lemma psf_parameters_unsupported conf d wave_ref :
  conf !! "PARAM_PSF_TYPE" ≠ Some (JStr "GS-PSF") →
  ∃ e, psf_parameters conf d wave_ref = ([], inl e).
Proof.
  intros Hbad. unfold psf_parameters, getitem.
  destruct (conf !! "PARAM_PSF_TYPE") as [v|] eqn:Hv; simpl; [|eauto].
  destruct (is_str "GS-PSF" v) eqn:Hgs.
  { apply is_str_true in Hgs. congruence. }
  destruct (is_str "G-PSF" v); eauto.
Qed.

(** The PSF and ADR steps call [psf] and [adr] only, with the reference
    wavelength they are handed. *)
Lemma psf_parameters_calls conf d wave_ref :
  all_calls (is_setup_call wave_ref) (psf_parameters conf d wave_ref).
Proof.
  unfold psf_parameters, getitem, call_params_from_gs.
  repeat first [ all_calls_step | by apply all_calls_emit ].
Qed.

Lemma adr_offsets_calls conf d wave_ref :
  all_calls (is_setup_call wave_ref) (adr_offsets conf d wave_ref).
Proof.
  unfold adr_offsets, getitem, call_differential_refraction, call_paralactic_angle.
  repeat first [ all_calls_step | apply all_calls_conf_array
               | apply all_calls_conf_array_default
               | by apply all_calls_emit ].
Qed.

End main_facts.

(** ** The slice and the NaN mask, element by element *)

Lemma get4_slice_wave_0 {A} (a : list (list (list (list A)))) t y x :
  get4 (slice_wave a) t 0 y x = get4 a t 200 y x.
Proof.
  unfold get4, get3, slice_wave. rewrite list_lookup_fmap.
  destruct (a !! t) as [c|]; simpl; [|done].
  rewrite lookup_take_lt by lia. by rewrite lookup_drop.
Qed.

Lemma get4_slice_wave_S {A} (a : list (list (list (list A)))) t l y x :
  get4 (slice_wave a) t (S l) y x = None.
Proof.
  unfold get4, get3, slice_wave. rewrite list_lookup_fmap.
  destruct (a !! t) as [c|]; simpl; [|done].
  by rewrite lookup_take_ge by lia.
Qed.

Lemma get4_neutralise_data dw t l y x :
  get4 (neutralise_nan dw).1 t l y x =
  (λ v, if PrimFloat.is_nan v then 0%float else v) <$> get4 dw.1 t l y x.
Proof.
  unfold neutralise_nan, zero_where, nan_mask. simpl.
  rewrite get4_zip4, get4_map4. by destruct (get4 dw.1 t l y x).
Qed.

Lemma get4_neutralise_weight dw t l y x :
  get4 (neutralise_nan dw).2 t l y x =
  match get4 dw.1 t l y x, get4 dw.2 t l y x with
  | Some v, Some w => Some (if PrimFloat.is_nan v then 0%float else w)
  | _, _ => None
  end.
Proof.
  unfold neutralise_nan, zero_where, nan_mask. simpl.
  rewrite get4_zip4, get4_map4. by destruct (get4 dw.1 t l y x).
Qed.

(** The wavelength axis of the data kept for an epoch: one plane when the
    epoch has more than 200 wavelengths, none otherwise. *)
Lemma neutralised_slice_axis (raw : hypercube * hypercube * list float) t c :
  raw.1.1 !! t = Some c →
  ((200 < length c)%nat →
     ∃ p, (neutralise_nan (select_wavelengths raw).1).1 !! t = Some [p]) ∧
  ((length c ≤ 200)%nat →
     (neutralise_nan (select_wavelengths raw).1).1 !! t = Some []).
Proof.
  destruct raw as [[rd rw] wv]. simpl. intros Hc.
  unfold neutralise_nan, zero_where, nan_mask, zip4, map4,
    select_wavelengths, slice_wave. simpl.
  rewrite lookup_zip_with, !list_lookup_fmap, Hc. simpl. split.
  - intros Hlen. destruct (drop 200 c) as [|p rest] eqn:Hdrop.
    + apply (f_equal length) in Hdrop. rewrite length_drop in Hdrop. simpl in Hdrop. lia.
    + simpl. eauto.
  - intros Hlen. by rewrite drop_ge by done.
Qed.

(** * The claims about [main] *)

Section main_claims.
Context `{!Collaborators}.

(** What each call of [main] is given. *)
Definition main_call_ok (conf : gmap string json) (ev : event) : Prop :=
  match ev with
  | CallParamsFromGs _ _ w | CallDifferentialRefraction _ _ _ _ _ w =>
      w = get_default conf "PARAM_LAMBDA_REF" (JFloat 5000)
  | CallGuessSky d | CallFitModelAllEpoch _ d =>
      ∃ l w, load_data conf = (l, inr (d, w))
  | CallDDTModel shape xi yi =>
      ∃ l d w, load_data conf = (l, inr (d, w)) ∧ shape = (nt d, nw d) ∧
        (∃ l', initial_ctr conf "PARAM_TARGET_XP" d = (l', inr xi)) ∧
        (∃ l', initial_ctr conf "PARAM_TARGET_YP" d = (l', inr yi))
  | _ => True
  end.

Lemma main_calls conf : all_calls (main_call_ok conf) (main conf).
Proof.
  unfold main. apply all_calls_bind.
  { eapply all_calls_impl; [|apply load_data_calls]. by intros []. }
  intros l [d w] Hload. destruct (load_data_result _ _ _ _ Hload) as [Hw _].
  cbn [fst snd]. apply all_calls_bind.
  { eapply all_calls_impl; [|apply psf_parameters_calls].
    intros []; simpl; try done; congruence. }
  intros ? ? _. apply all_calls_bind.
  { eapply all_calls_impl; [|apply adr_offsets_calls].
    intros []; simpl; try done; congruence. }
  intros ? ? _. apply all_calls_bind.
  { unfold call_guess_sky. apply all_calls_bind; [|intros; apply all_calls_ret].
    apply all_calls_emit. simpl. eauto. }
  intros ? ? _. apply all_calls_bind; [apply all_calls_conf_array_default|].
  intros ? xi Hxi. apply all_calls_bind; [apply all_calls_conf_array_default|].
  intros ? yi Hyi. unfold getitem. do 2 (apply all_calls_bind; [apply all_calls_or_raise|];
    intros ? ? _).
  apply all_calls_bind.
  { apply all_calls_emit. simpl. exists l, d, w. split_and!; eauto. }
  intros ? ? _. apply all_calls_bind.
  { unfold call_fit_model_all_epoch. apply all_calls_bind; [|intros; apply all_calls_ret].
    apply all_calls_emit. simpl. eauto. }
  intros ? ? _. eapply all_calls_impl; [|apply registration_stage_calls].
  by intros [].
Qed.

Lemma main_call conf ev : ev ∈ calls (main conf) → main_call_ok conf ev.
Proof. intros Hev. by eapply (proj1 (Forall_forall _ _)); [apply main_calls|]. Qed.

(** C5.  The [DDTData] the fit is given holds, at every element of the
    selected and rescaled input where the data is NaN, 0.0 as data and 0.0
    as weight, and at every other element the data and the weight of the
    input; [neutralise_nan] raises nothing. *)
Theorem nan_pixels_are_neutralised conf m d :
  CallFitModelAllEpoch m d ∈ calls (main conf) →
  ∃ in_cube,
    conf !! "IN_CUBE" = Some in_cube ∧
    ∀ t l y x v w,
      get4 (select_wavelengths (read_dataset in_cube)).1.1 t l y x = Some v →
      get4 (select_wavelengths (read_dataset in_cube)).1.2 t l y x = Some w →
      (PrimFloat.is_nan v = true →
         get4 (data d) t l y x = Some 0%float ∧
         get4 (weight d) t l y x = Some 0%float) ∧
      (PrimFloat.is_nan v = false →
         get4 (data d) t l y x = Some v ∧
         get4 (weight d) t l y x = Some w).
Proof.
  intros (l & w & Hload)%main_call.
  destruct (load_data_result _ _ _ _ Hload) as (_ & in_cube & Hin & Hd & Hw & _).
  exists in_cube. split; [done|]. intros t k y x v u Hv Hu.
  rewrite Hd, Hw, get4_neutralise_data, get4_neutralise_weight, Hv, Hu. simpl.
  split; by intros ->.
Qed.

(** C7.  With [FLAG_APODIZER] at 2 or more, or with a [PARAM_PSF_TYPE] that
    is not "GS-PSF", [main] ends in an exception and has made no call that
    fits: neither the joint fit nor a rendering or a position search of the
    registration. *)
Theorem unsupported_configuration_is_fatal conf :
  ge_two (get_default conf "FLAG_APODIZER" (JInt 0)) = Some true ∨
  conf !! "PARAM_PSF_TYPE" ≠ Some (JStr "GS-PSF") →
  (∃ e, outcome (main conf) = inl e) ∧
  all_calls (λ ev, ¬ is_fit_call ev) (main conf).
Proof.
  assert (∀ l e, load_data conf = (l, inl e) →
            (∃ e, outcome (main conf) = inl e) ∧
            all_calls (λ ev, ¬ is_fit_call ev) (main conf)) as Hfail.
  { intros l e Hload. unfold main. rewrite (bind_inl _ _ _ _ Hload).
    split; [by exists e|]. pose proof (load_data_calls conf) as Hcalls.
    rewrite Hload in Hcalls. eapply all_calls_impl; [|exact Hcalls]. intros []; simpl; tauto. }
  intros [Hapod|Hpsf].
  - apply (Hfail [] (RuntimeError "FLAG_APODIZER >= 2 not implemented")).
    unfold load_data. by rewrite Hapod.
  - destruct (load_data conf) as [l [e|[d w]]] eqn:Hload; [by eapply Hfail|].
    destruct (psf_parameters_unsupported conf d w Hpsf) as [e He].
    pose proof (load_data_calls conf) as Hcalls. rewrite Hload in Hcalls.
    unfold main. rewrite (bind_ok _ _ _ _ Hload). simpl.
    rewrite (bind_inl _ _ _ _ He). simpl. split; [by exists e|].
    unfold all_calls, calls in *. simpl in *. rewrite app_nil_r.
    eapply Forall_impl; [exact Hcalls|]. intros []; simpl; tauto.
Qed.

(** C8.  The reference wavelength given to [params_from_gs] and to
    [differential_refraction] is 5000.0 when the configuration has no
    [PARAM_LAMBDA_REF], and the value of that key when it has one. *)
Theorem reference_wavelength conf ev w :
  ev ∈ calls (main conf) →
  wave_ref_of ev = Some w →
  (conf !! "PARAM_LAMBDA_REF" = None → w = JFloat 5000) ∧
  (∀ v, conf !! "PARAM_LAMBDA_REF" = Some v → w = v).
Proof.
  intros Hok%main_call Href.
  assert (w = get_default conf "PARAM_LAMBDA_REF" (JFloat 5000)) as ->.
  { destruct ev; simpl in *; try discriminate; congruence. }
  unfold get_default. split; [by intros ->|]. by intros v ->.
Qed.

(** C9 (as amended).  The [DDTData] the fit is given keeps of every epoch
    with more than 200 wavelengths the one slice at index 200, the data
    multiplied by 10^15 and the weight by 10^-30, NaN elements neutralised;
    nothing of another wavelength is kept; of an epoch with 200 wavelengths
    or fewer nothing is kept at all. *)
Theorem single_wavelength_slice conf m d :
  CallFitModelAllEpoch m d ∈ calls (main conf) →
  ∃ in_cube,
    conf !! "IN_CUBE" = Some in_cube ∧
    wave d = take 1 (drop 200 (read_dataset in_cube).2) ∧
    (∀ t c, (read_dataset in_cube).1.1 !! t = Some c →
       ((200 < length c)%nat → ∃ p, data d !! t = Some [p]) ∧
       ((length c ≤ 200)%nat → data d !! t = Some [])) ∧
    (∀ t y x v w,
       get4 (read_dataset in_cube).1.1 t 200 y x = Some v →
       get4 (read_dataset in_cube).1.2 t 200 y x = Some w →
       get4 (data d) t 0 y x =
         Some (if PrimFloat.is_nan (v * data_scale) then 0 else v * data_scale)%float ∧
       get4 (weight d) t 0 y x =
         Some (if PrimFloat.is_nan (v * data_scale) then 0 else w * weight_scale)%float) ∧
    (∀ t l y x,
       get4 (data d) t (S l) y x = None ∧ get4 (weight d) t (S l) y x = None).
Proof.
  intros (l & w & Hload)%main_call.
  destruct (load_data_result _ _ _ _ Hload) as (_ & in_cube & Hin & Hd & Hw & Hwave).
  exists in_cube. split_and!; try done.
  - intros t c Hc. rewrite Hd. by apply neutralised_slice_axis.
  - intros t y x v u Hv Hu.
    rewrite Hd, Hw, get4_neutralise_data, get4_neutralise_weight.
    unfold select_wavelengths. simpl.
    rewrite !get4_map4, !get4_slice_wave_0, Hv, Hu. done.
  - intros t k y x.
    rewrite Hd, Hw, get4_neutralise_data, get4_neutralise_weight.
    unfold select_wavelengths. simpl.
    by rewrite !get4_map4, !get4_slice_wave_S.
Qed.

End main_claims.

(** ** [main] on the small run *)

Lemma demo_fit_call :
  CallFitModelAllEpoch Demo.fit_model Demo.fit_data
    ∈ calls (main (H := Demo.collaborators) Demo.conf).
Proof. apply (list_elem_of_lookup_2 _ 7). vm_compute. reflexivity. Qed.

(** C5, on the small run: the first pixel of epoch 0 is NaN in the input. *)
Lemma nan_pixels_are_neutralised_witness :
  CallFitModelAllEpoch Demo.fit_model Demo.fit_data
    ∈ calls (main (H := Demo.collaborators) Demo.conf) ∧
  get4 (data Demo.fit_data) 0 0 0 0 = Some 0%float ∧
  get4 (weight Demo.fit_data) 0 0 0 0 = Some 0%float.
Proof.
  split; [exact demo_fit_call|].
  destruct (nan_pixels_are_neutralised (H := Demo.collaborators) Demo.conf
              Demo.fit_model Demo.fit_data demo_fit_call)
    as (in_cube & _ & Hel).
  destruct (Hel 0 0 0 0 nan (2 * weight_scale)%float)%nat as [Hnan _].
  - vm_compute; reflexivity.
  - vm_compute; reflexivity.
  - apply Hnan. vm_compute; reflexivity.
Defined.

(** C7, on the small run: a configuration asking for "G-PSF". *)
Lemma unsupported_configuration_is_fatal_witness :
  Demo.conf_g_psf !! "PARAM_PSF_TYPE" ≠ Some (JStr "GS-PSF") ∧
  (∃ e, outcome (main (H := Demo.collaborators) Demo.conf_g_psf) = inl e) ∧
  all_calls (λ ev, ¬ is_fit_call ev) (main (H := Demo.collaborators) Demo.conf_g_psf).
Proof.
  assert (Demo.conf_g_psf !! "PARAM_PSF_TYPE" ≠ Some (JStr "GS-PSF")) as Hbad.
  { vm_compute. discriminate. }
  split; [exact Hbad|].
  apply (unsupported_configuration_is_fatal (H := Demo.collaborators) Demo.conf_g_psf).
  right. exact Hbad.
Defined.

(** C8, on the small run: no [PARAM_LAMBDA_REF] in the file. *)
Lemma reference_wavelength_witness :
  CallParamsFromGs (JList []) [3200%float] (JFloat 5000)
    ∈ calls (main (H := Demo.collaborators) Demo.conf) ∧
  Demo.conf !! "PARAM_LAMBDA_REF" = None ∧
  (∀ v, Demo.conf !! "PARAM_LAMBDA_REF" = Some v → JFloat 5000 = v).
Proof.
  assert (CallParamsFromGs (JList []) [3200%float] (JFloat 5000)
            ∈ calls (main (H := Demo.collaborators) Demo.conf)) as Hin.
  { apply (list_elem_of_lookup_2 _ 2). vm_compute. reflexivity. }
  split; [exact Hin|]. split; [vm_compute; reflexivity|].
  apply (reference_wavelength (H := Demo.collaborators) Demo.conf _ _ Hin eq_refl).
Defined.

(** C9, on the small run: 201 wavelengths, one plane kept. *)
Lemma single_wavelength_slice_witness :
  CallFitModelAllEpoch Demo.fit_model Demo.fit_data
    ∈ calls (main (H := Demo.collaborators) Demo.conf) ∧
  wave Demo.fit_data = [3200%float] ∧
  get4 (data Demo.fit_data) 0 0 0 1 = Some (3 * data_scale)%float ∧
  get4 (weight Demo.fit_data) 0 0 0 1 = Some (2 * weight_scale)%float.
Proof.
  split; [exact demo_fit_call|].
  destruct (single_wavelength_slice (H := Demo.collaborators) Demo.conf
              Demo.fit_model Demo.fit_data demo_fit_call)
    as (in_cube & _ & Hwave & _ & Hel & _).
  split; [rewrite Hwave; vm_compute; reflexivity|].
  destruct (Hel 0%nat 0%nat 1%nat 3%float 2%float) as [Hd Hw];
    [vm_compute; reflexivity..|].
  split; [rewrite Hd|rewrite Hw]; vm_compute; reflexivity.
Defined.

(** C9 as stated fails on a dataset of three wavelengths: [main] goes
    through the joint fit with a [DDTData] whose wavelength axis is empty. *)
Lemma single_wavelength_slice_counterexample :
  (read_dataset (Collaborators := Demo.short_collaborators)
     (JList [JStr "e0.fits"])).1.1 = [replicate 3 [[3%float]]] ∧
  CallFitModelAllEpoch Demo.short_fit_model Demo.short_fit_data
    ∈ calls (main (H := Demo.short_collaborators) Demo.short_conf) ∧
  data Demo.short_fit_data = [[]] ∧
  weight Demo.short_fit_data = [[]] ∧
  wave Demo.short_fit_data = [] ∧
  nw Demo.short_fit_data = 0%nat.
Proof.
  split_and!; try (vm_compute; reflexivity).
  apply (list_elem_of_lookup_2 _ 7). vm_compute. reflexivity.
Qed.


(** * Further properties of the registration stage *)

(** ** NaN in comparisons and sums *)

Lemma SFcompare_refl x : x ≠ S754_nan → SFcompare x x = Some Eq.
Proof.
  destruct x as [s|s| |s m e]; try done; intros _; simpl.
  - by destruct s.
  - rewrite Z.compare_refl, Pos.compare_cont_refl. by destruct s.
Qed.

Lemma is_nan_Prim2SF d : PrimFloat.is_nan d = true → Prim2SF d = S754_nan.
Proof.
  unfold PrimFloat.is_nan. rewrite FloatAxioms.eqb_spec. unfold SFeqb.
  intros Hne%negb_true_iff.
  destruct (Prim2SF d) as [s|s| |s m e] eqn:Hd; [..|done|];
    by rewrite SFcompare_refl in Hne.
Qed.

(** A NaN is below nothing. *)
Lemma is_nan_ltb_false d c : PrimFloat.is_nan d = true → (d <? c)%float = false.
Proof.
  intros Hd%is_nan_Prim2SF. rewrite FloatAxioms.ltb_spec, Hd. done.
Qed.

(** Nothing is above a NaN. *)
Lemma ltb_is_nan_false d c : PrimFloat.is_nan d = true → (c <? d)%float = false.
Proof.
  intros Hd%is_nan_Prim2SF. rewrite FloatAxioms.ltb_spec, Hd. unfold SFltb.
  by destruct (Prim2SF c).
Qed.

Lemma add_nan_l y : PrimFloat.is_nan (nan + y) = true.
Proof.
  assert (nan + y = nan)%float as ->; [|done].
  rewrite <- (FloatAxioms.SF2Prim_Prim2SF (nan + y)), FloatAxioms.add_spec. done.
Qed.

(** ** What the mask can keep *)

Lemma mask_sum_le mask : (mask_sum mask ≤ length (concat mask))%nat.
Proof.
  unfold mask_sum. induction (concat mask) as [|b l IH]; simpl; [done|].
  destruct b; lia.
Qed.

Lemma concat_flux_mask thr tmp_m :
  concat (flux_mask thr tmp_m) = (λ v, (thr <? v)%float) <$> concat tmp_m.
Proof.
  unfold flux_mask. induction tmp_m as [|r tmp_m IH]; simpl; [done|].
  rewrite fmap_app. f_equal. exact IH.
Qed.

Lemma mask_sum_all_false thr tmp_m :
  (∀ v, (thr <? v)%float = false) → mask_sum (flux_mask thr tmp_m) = 0%nat.
Proof.
  intros Hthr. unfold mask_sum. rewrite concat_flux_mask.
  induction (concat tmp_m) as [|v l IH]; simpl; [done|]. by rewrite Hthr.
Qed.

(** The threshold of a flux map that holds a NaN is NaN. *)
Lemma flux_threshold_nan tmp_m thr :
  existsb PrimFloat.is_nan (concat tmp_m) = true →
  flux_threshold tmp_m = Some thr →
  PrimFloat.is_nan thr = true.
Proof.
  unfold flux_threshold, np_min. intros Hnan.
  destruct (concat tmp_m) as [|v l] eqn:Hl; [done|].
  rewrite Hnan. simpl. intros [= <-]. apply add_nan_l.
Qed.

Section registration_extras.
Context `{!Collaborators}.
Variables data_xctr_init data_yctr_init : list float.

Local Abbreviation stage := (registration_stage data_xctr_init data_yctr_init).
Local Abbreviation step := (epoch_step data_xctr_init data_yctr_init).

(** An epoch whose mask cannot keep 20 spaxels is left as it was. *)
Lemma short_mask_skipped d m log s i xs ys mm :
  stage d m = (log, inr s) →
  CallEvaluate i xs ys mm ∈ log →
  (∀ thr, flux_threshold (sum_axis0 (ny d) (nx d) mm) = Some thr →
          (mask_sum (flux_mask thr (sum_axis0 (ny d) (nx d) mm)) < 20)%nat) →
  (∀ W it pos conv, CallFitPosition i W it pos conv ∉ log) ∧
  data_xctr (rs_model s) !! i = data_xctr m !! i ∧
  data_yctr (rs_model s) !! i = data_yctr m !! i ∧
  rs_include s !! i = Some true.
Proof.
  intros Hrun Hev Hfew.
  pose proof (stage_event_in_range _ _ _ _ _ _ _ i Hrun Hev eq_refl) as Hi.
  destruct (stage_visit _ _ _ _ _ _ i Hrun Hi)
    as (s1 & log1 & s2 & Hstep & Hd & _ & Hx & Hy & Hinc & Hlen & Hx' & Hy' & Hinc'
        & _ & Hin).
  pose proof (Hin _ Hev eq_refl) as Hev1.
  destruct Hstep as [fr ? ?|xs' ys' mm' thr' Hatt Hsum'
                    |xs' ys' mm' thr' w_t x0 y0 d' r Hatt Hsum' Hwt -> -> Hx0 Hy0 Hdist
                    |xs' ys' mm' thr' w_t x0 y0 d' r Hatt Hsum' Hwt -> -> Hx0 Hy0 Hdist].
  - by apply elem_of_nil in Hev1.
  - split_and!; try congruence.
    intros W it pos conv Hfit. specialize (Hin _ Hfit eq_refl).
    apply list_elem_of_singleton in Hin. discriminate.
  - apply elem_of_cons in Hev1 as [Heq|Hev1];
      [|apply list_elem_of_singleton in Hev1; discriminate].
    injection Heq as -> -> ->.
    destruct Hatt as (_ & _ & _ & _ & _ & Hthr').
    fold (flux_of s1 mm') in Hthr'.
    rewrite (flux_of_same d) in Hsum', Hthr' by done.
    specialize (Hfew _ Hthr'). lia.
  - apply elem_of_cons in Hev1 as [Heq|Hev1];
      [|apply list_elem_of_singleton in Hev1; discriminate].
    injection Heq as -> -> ->.
    destruct Hatt as (_ & _ & _ & _ & _ & Hthr').
    fold (flux_of s1 mm') in Hthr'.
    rewrite (flux_of_same d) in Hsum', Hthr' by done.
    specialize (Hfew _ Hthr'). lia.
Qed.

(** What a call of [fit_position] leads to. *)
Lemma fit_call_outcome d m log s i W it pos conv :
  stage d m = (log, inr s) →
  CallFitPosition i W it pos conv ∈ log →
  ∃ x0 y0,
    data_xctr_init !! i = Some x0 ∧ data_yctr_init !! i = Some y0 ∧
    it = maxiter_fit_position ∧
    (((move_dist pos x0 y0 <? maxmove_fit_position)%float = true ∧
      data_xctr (rs_model s) !! i = Some pos.1 ∧
      data_yctr (rs_model s) !! i = Some pos.2 ∧
      rs_include s !! i = Some true) ∨
     ((move_dist pos x0 y0 <? maxmove_fit_position)%float = false ∧
      data_xctr (rs_model s) !! i = data_xctr m !! i ∧
      data_yctr (rs_model s) !! i = data_yctr m !! i ∧
      rs_include s !! i = Some false)).
Proof.
  intros Hrun Hev.
  pose proof (stage_event_in_range _ _ _ _ _ _ _ i Hrun Hev eq_refl) as Hi.
  destruct (stage_visit _ _ _ _ _ _ i Hrun Hi)
    as (s1 & log1 & s2 & Hstep & _ & _ & Hx & Hy & Hinc & Hlen & Hx' & Hy' & Hinc'
        & _ & Hin).
  specialize (Hin _ Hev eq_refl).
  destruct Hstep as [fr ? ?|xs ys mm thr Hatt Hsum
                    |xs ys mm thr w_t x0 y0 d' r Hatt Hsum Hwt -> -> Hx0 Hy0 Hdist
                    |xs ys mm thr w_t x0 y0 d' r Hatt Hsum Hwt -> -> Hx0 Hy0 Hdist].
  - by apply elem_of_nil in Hin.
  - apply list_elem_of_singleton in Hin. discriminate.
  - apply elem_of_cons in Hin as [Heq|Hin]; [discriminate|].
    apply list_elem_of_singleton in Hin. injection Hin as -> -> -> ->.
    destruct Hatt as (_ & _ & (xc & Hxc & _) & (yc & Hyc & _) & _).
    exists x0, y0. split_and!; try done. left.
    rewrite Hx', Hy', Hinc'. simpl. split_and!; try done.
    + apply list_lookup_insert_eq. by eapply lookup_lt_Some.
    + apply list_lookup_insert_eq. by eapply lookup_lt_Some.
  - apply elem_of_cons in Hin as [Heq|Hin]; [discriminate|].
    apply list_elem_of_singleton in Hin. injection Hin as -> -> -> ->.
    exists x0, y0. split_and!; try done. right.
    rewrite Hx', Hy', Hinc'. simpl. split_and!; try done.
    by apply list_lookup_insert_eq.
Qed.

(** X1.  A rendered flux map that holds a NaN has a NaN threshold, nothing
    compares above it, and the epoch is skipped: no position search, offsets
    as before, still included. *)
Theorem nan_flux_is_skipped d m log s i xs ys mm :
  stage d m = (log, inr s) →
  CallEvaluate i xs ys mm ∈ log →
  existsb PrimFloat.is_nan (concat (sum_axis0 (ny d) (nx d) mm)) = true →
  (∀ W it pos conv, CallFitPosition i W it pos conv ∉ log) ∧
  data_xctr (rs_model s) !! i = data_xctr m !! i ∧
  data_yctr (rs_model s) !! i = data_yctr m !! i ∧
  rs_include s !! i = Some true.
Proof.
  intros Hrun Hev Hnan. eapply short_mask_skipped; [done..|].
  intros thr Hthr. rewrite mask_sum_all_false; [lia|].
  intros v. apply is_nan_ltb_false. by eapply flux_threshold_nan.
Qed.

(** X2.  A rendered flux map of fewer than 20 spaxels is never registered,
    whatever its values. *)
Theorem small_map_is_skipped d m log s i xs ys mm :
  stage d m = (log, inr s) →
  CallEvaluate i xs ys mm ∈ log →
  (length (concat (sum_axis0 (ny d) (nx d) mm)) < 20)%nat →
  (∀ W it pos conv, CallFitPosition i W it pos conv ∉ log) ∧
  data_xctr (rs_model s) !! i = data_xctr m !! i ∧
  data_yctr (rs_model s) !! i = data_yctr m !! i ∧
  rs_include s !! i = Some true.
Proof.
  intros Hrun Hev Hsmall. eapply short_mask_skipped; [done..|].
  intros thr _. eapply Nat.le_lt_trans; [apply mask_sum_le|].
  by rewrite concat_flux_mask, length_fmap.
Qed.

(** X3.  A position search whose distance from the initial position comes
    out as NaN (a NaN coordinate returned, say) is rejected like a move
    beyond the cap: offsets as before, epoch excluded. *)
Theorem nan_distance_is_excluded d m log s i W it pos conv x0 y0 :
  stage d m = (log, inr s) →
  CallFitPosition i W it pos conv ∈ log →
  data_xctr_init !! i = Some x0 →
  data_yctr_init !! i = Some y0 →
  PrimFloat.is_nan (move_dist pos x0 y0) = true →
  data_xctr (rs_model s) !! i = data_xctr m !! i ∧
  data_yctr (rs_model s) !! i = data_yctr m !! i ∧
  rs_include s !! i = Some false.
Proof.
  intros Hrun Hev Hx0 Hy0 Hnan.
  destruct (fit_call_outcome _ _ _ _ _ _ _ _ _ Hrun Hev)
    as (x0' & y0' & Hx0' & Hy0' & _ & Hcases).
  assert (x0' = x0) as -> by congruence. assert (y0' = y0) as -> by congruence.
  destruct Hcases as [(Hnear & _)|(_ & ? & ? & ?)]; [|done].
  by rewrite (is_nan_ltb_false _ _ Hnan) in Hnear.
Qed.


(** X5.  The flux of an epoch is rendered on the data grid, centred on the
    offsets the model had for that epoch before the stage: what the stage
    did to the epochs before it plays no part. *)
Theorem rendering_coordinates d m log s i xs ys mm :
  stage d m = (log, inr s) →
  CallEvaluate i xs ys mm ∈ log →
  ∃ xc yc,
    data_xctr m !! i = Some xc ∧ data_yctr m !! i = Some yc ∧
    xs = centred_coords (nx d) xc ∧ ys = centred_coords (ny d) yc ∧
    length xs = nx d ∧ length ys = ny d.
Proof.
  intros Hrun Hev.
  pose proof (stage_event_in_range _ _ _ _ _ _ _ i Hrun Hev eq_refl) as Hi.
  destruct (stage_visit _ _ _ _ _ _ i Hrun Hi)
    as (s1 & log1 & s2 & Hstep & Hd & _ & Hx & Hy & _ & _ & _ & _ & _ & _ & Hin).
  specialize (Hin _ Hev eq_refl).
  assert (∀ xs' ys' mm' thr,
            attempted i s1 xs' ys' mm' thr →
            CallEvaluate i xs ys mm = CallEvaluate i xs' ys' mm' →
            ∃ xc yc,
              data_xctr m !! i = Some xc ∧ data_yctr m !! i = Some yc ∧
              xs = centred_coords (nx d) xc ∧ ys = centred_coords (ny d) yc ∧
              length xs = nx d ∧ length ys = ny d) as Hatt.
  { intros xs' ys' mm' thr (_ & _ & (xc & Hxc & ->) & (yc & Hyc & ->) & _) [= -> -> ->].
    rewrite Hx in Hxc. rewrite Hy in Hyc. rewrite Hd. simpl.
    exists xc, yc. split_and!; try done;
      unfold centred_coords; by rewrite length_fmap, length_seq. }
  destruct Hstep as [fr ? ?|xs' ys' mm' thr Ha Hsum
                    |xs' ys' mm' thr w_t x0 y0 d' r Ha Hsum Hwt -> -> Hx0 Hy0 Hdist
                    |xs' ys' mm' thr w_t x0 y0 d' r Ha Hsum Hwt -> -> Hx0 Hy0 Hdist].
  - by apply elem_of_nil in Hin.
  - apply list_elem_of_singleton in Hin. by eapply Hatt.
  - apply elem_of_cons in Hin as [Heq|Hin];
      [by eapply Hatt|apply list_elem_of_singleton in Hin; discriminate].
  - apply elem_of_cons in Hin as [Heq|Hin];
      [by eapply Hatt|apply list_elem_of_singleton in Hin; discriminate].
Qed.
End registration_extras.

(** ** The calls of the stage, the parameters it keeps, the runs it refuses *)

(** What the stage leaves of the model: everything but the entries of the
    two offset arrays. *)
Definition same_but_ctr (m m' : DDTModel) : Prop :=
  galaxy m' = galaxy m ∧ sn m' = sn m ∧ sky m' = sky m ∧ psf m' = psf m ∧
  adr_dx m' = adr_dx m ∧ adr_dy m' = adr_dy m ∧
  length (data_xctr m') = length (data_xctr m) ∧
  length (data_yctr m') = length (data_yctr m).

Lemma same_but_ctr_refl m : same_but_ctr m m.
Proof. by repeat split. Qed.

Lemma same_but_ctr_trans m1 m2 m3 :
  same_but_ctr m1 m2 → same_but_ctr m2 m3 → same_but_ctr m1 m3.
Proof.
  intros (? & ? & ? & ? & ? & ? & ? & ?) (? & ? & ? & ? & ? & ? & ? & ?).
  repeat split; congruence.
Qed.

(** The calls about epoch [i] in a log. *)
Definition calls_about (i : nat) (log : list event) : list event :=
  filter (λ ev, event_epoch ev = Some i) log.

(** The entry of [is_final_ref] for epoch [i] is missing: the array is too
    short or is no array of flags at all (the key was absent). *)
Definition no_final_ref_flag (d : DDTData) (i : nat) : Prop :=
  match is_final_ref d with
  | JList l => l !! i = None
  | _ => True
  end.

Lemma no_final_ref_flag_raises d i :
  no_final_ref_flag d i → final_ref_at d i = ([], inl IndexError).
Proof.
  unfold no_final_ref_flag, final_ref_at. destruct (is_final_ref d); try done.
  by intros ->.
Qed.

Section stage_structure.
Context `{!Collaborators}.
Variables data_xctr_init data_yctr_init : list float.

Local Abbreviation stage := (registration_stage data_xctr_init data_yctr_init).
Local Abbreviation step := (epoch_step data_xctr_init data_yctr_init).
Local Abbreviation steps := (steps data_xctr_init data_yctr_init).

Lemma step_model i s log s' :
  step i s log s' → same_but_ctr (rs_model s) (rs_model s').
Proof.
  destruct 1; subst; simpl; try apply same_but_ctr_refl.
  repeat split; simpl; by rewrite length_insert.
Qed.

Lemma steps_model l s log s' :
  steps l s log s' → same_but_ctr (rs_model s) (rs_model s').
Proof.
  induction 1; [apply same_but_ctr_refl|].
  eapply same_but_ctr_trans; [by eapply step_model|done].
Qed.

(** The log of one pass: nothing, a rendering, or a rendering and a search. *)
Lemma step_log_shape i s log s' :
  step i s log s' →
  log = [] ∨
  (∃ xs ys mm, log = [CallEvaluate i xs ys mm]) ∨
  (∃ xs ys mm W pos conv,
     log = [CallEvaluate i xs ys mm;
            CallFitPosition i W maxiter_fit_position pos conv]).
Proof.
  destruct 1; subst; [by left|right; left; eauto|right; right..];
    by eexists _, _, _, _, _, _.
Qed.

Lemma calls_about_step i s log s' : step i s log s' → calls_about i log = log.
Proof.
  intros [->|[(xs & ys & mm & ->)|(xs & ys & mm & W & pos & conv & ->)]]%step_log_shape;
    unfold calls_about; by repeat (rewrite filter_cons_True by done).
Qed.

Lemma calls_about_other_step i j s log s' :
  step j s log s' → i ≠ j → calls_about i log = [].
Proof.
  intros [->|[(xs & ys & mm & ->)|(xs & ys & mm & W & pos & conv & ->)]]%step_log_shape
    Hne; unfold calls_about; [done|..];
    repeat (rewrite filter_cons_False by (simpl; congruence)); done.
Qed.

Lemma calls_about_app i (l1 l2 : list event) :
  calls_about i (l1 ++ l2) = calls_about i l1 ++ calls_about i l2.
Proof. apply filter_app. Qed.

Lemma calls_about_steps_none i l s log s' :
  steps l s log s' → i ∉ l → calls_about i log = [].
Proof.
  induction 1 as [|j l s log1 s1 log2 s2 Hstep Hsteps IH]; intros Hi; [done|].
  apply not_elem_of_cons in Hi as [Hne Hi].
  rewrite calls_about_app, (calls_about_other_step _ _ _ _ _ Hstep Hne). by apply IH.
Qed.

Lemma calls_about_steps i l s log s' :
  steps l s log s' → NoDup l →
  calls_about i log = [] ∨
  (∃ xs ys mm, calls_about i log = [CallEvaluate i xs ys mm]) ∨
  (∃ xs ys mm W pos conv,
     calls_about i log =
       [CallEvaluate i xs ys mm;
        CallFitPosition i W maxiter_fit_position pos conv]).
Proof.
  induction 1 as [|j l s log1 s1 log2 s2 Hstep Hsteps IH]; intros Hnd; [by left|].
  apply NoDup_cons in Hnd as [Hj Hnd]. rewrite calls_about_app.
  destruct (decide (i = j)) as [->|Hne].
  - rewrite (calls_about_steps_none _ _ _ _ _ Hsteps Hj), app_nil_r.
    rewrite (calls_about_step _ _ _ _ Hstep). by eapply step_log_shape.
  - rewrite (calls_about_other_step _ _ _ _ _ Hstep Hne). by apply IH.
Qed.

(** X6.  About any one epoch the stage makes no call, or one rendering, or
    one rendering followed by one position search; the search always gets
    [maxiter = 100]. *)
Theorem calls_about_an_epoch d m log s i :
  stage d m = (log, inr s) →
  calls_about i log = [] ∨
  (∃ xs ys mm, calls_about i log = [CallEvaluate i xs ys mm]) ∨
  (∃ xs ys mm W pos conv,
     calls_about i log =
       [CallEvaluate i xs ys mm; CallFitPosition i W 100 pos conv]).
Proof.
  intros (s' & Hsteps & _)%registration_stage_steps.
  apply (calls_about_steps i _ _ _ _ Hsteps). apply NoDup_seq.
Qed.

(** X7.  The stage writes nothing of the model but entries of the two offset
    arrays: galaxy, point-source flux, sky, PSF and ADR shifts are what they
    were, the offset arrays keep their lengths, and [include_in_fit] has one
    flag per epoch. *)
Theorem stage_keeps_model_parameters d m log s :
  stage d m = (log, inr s) →
  galaxy (rs_model s) = galaxy m ∧ sn (rs_model s) = sn m ∧
  sky (rs_model s) = sky m ∧ psf (rs_model s) = psf m ∧
  adr_dx (rs_model s) = adr_dx m ∧ adr_dy (rs_model s) = adr_dy m ∧
  length (data_xctr (rs_model s)) = length (data_xctr m) ∧
  length (data_yctr (rs_model s)) = length (data_yctr m) ∧
  length (rs_include s) = nt d.
Proof.
  intros (s' & Hsteps & ->)%registration_stage_steps. simpl.
  destruct (steps_model _ _ _ _ Hsteps) as (? & ? & ? & ? & ? & ? & ? & ?).
  pose proof (steps_lengths _ _ _ _ _ _ Hsteps) as Hlen. simpl in *.
  rewrite length_replicate in Hlen. by split_and!.
Qed.

Lemma register_epoch_passed xi yi i s fr :
  final_ref_at (rs_data s) i = ([], inr fr) →
  negb fr || is_master i (master_final_ref (rs_data s)) = true →
  register_epoch xi yi i s = ([], inr s).
Proof.
  unfold register_epoch, register_epoch_store, st_bind, st_lift.
  intros -> Hpass. simpl. by rewrite Hpass.
Qed.

(** X8.  When every epoch has a flag and is either no final reference or the
    master, the stage completes without a single call and returns the data,
    the model and an all-true [include_in_fit] untouched. *)
Theorem nothing_to_register d m :
  (∀ i, (i < nt d)%nat →
        ∃ fr, final_ref_at d i = ([], inr fr) ∧
              negb fr || is_master i (master_final_ref d) = true) →
  stage d m =
    ([], inr {| rs_data := d; rs_model := m; rs_include := replicate (nt d) true |}).
Proof.
  intros Hall. unfold registration_stage.
  assert (∀ l s, rs_data s = d → (∀ i, i ∈ l → (i < nt d)%nat) →
            for_each (register_epoch data_xctr_init data_yctr_init) l s = ([], inr s))
    as Hloop.
  { induction l as [|i l IH]; intros s Hd Hl; [done|]. simpl.
    destruct (Hall i) as (fr & Hfr & Hpass); [apply Hl; by left|].
    rewrite <- Hd in Hfr, Hpass.
    rewrite (register_epoch_passed _ _ _ _ _ Hfr Hpass). simpl.
    rewrite IH; [done..|]. intros j Hj. apply Hl. by right. }
  rewrite Hloop; [|done|by intros i [_ ?]%elem_of_seq].
  simpl. by rewrite set_weight_id.
Qed.

(** A stage that completes has read a flag for every epoch. *)
Lemma stage_reads_every_flag d m log s i :
  stage d m = (log, inr s) → (i < nt d)%nat → ¬ no_final_ref_flag d i.
Proof.
  intros Hrun Hi Hno.
  destruct (stage_visit _ _ _ _ _ _ i Hrun Hi) as (s1 & log1 & s2 & Hstep & Hd & _).
  assert (final_ref_at (rs_data s1) i = ([], inl IndexError)) as Hraise.
  { apply no_final_ref_flag_raises. unfold no_final_ref_flag in *. by rewrite Hd. }
  destruct Hstep as [fr Hfr ?|xs ys mm thr (Hfr & _) ?
                    |xs ys mm thr w_t x0 y0 d' r (Hfr & _) ? ? ? ? ? ? ?
                    |xs ys mm thr w_t x0 y0 d' r (Hfr & _) ? ? ? ? ? ? ?];
    congruence.
Qed.

Lemma stage_data_restored d m log s : stage d m = (log, inr s) → rs_data s = d.
Proof.
  intros (s' & Hsteps & ->)%registration_stage_steps. simpl.
  pose proof (steps_data _ _ _ _ _ _ Hsteps) as Hd. simpl in Hd.
  rewrite Hd, set_weight_set_weight. apply set_weight_id.
Qed.

(** X9.  When [is_final_ref] has no entry for some epoch (the array is too
    short, or [PARAM_IS_FINAL_REF] was absent and there is no array), the
    stage does not complete: it ends in an exception. *)
Theorem missing_final_ref_flag_is_fatal d m i :
  (i < nt d)%nat →
  no_final_ref_flag d i →
  ∃ e, outcome (stage d m) = inl e.
Proof.
  intros Hi Hno. destruct (stage d m) as [log [e|s]] eqn:Hrun; [by exists e|].
  by destruct (stage_reads_every_flag _ _ _ _ i Hrun Hi).
Qed.
End stage_structure.

(** * Further properties of [main] *)

Lemma index_json_calls l i : calls (index_json l i) = [].
Proof.
  destruct l, i; try done; simpl.
  - by destruct (String.get _ _).
  - by destruct (_ !! _).
Qed.

Lemma conf_array_result conf key l xs :
  conf_array conf key = (l, inr xs) →
  ∃ v, conf !! key = Some v ∧ np_array v = Some xs.
Proof.
  unfold conf_array, getitem. intros Hrun. inv_run. eauto.
Qed.

Lemma conf_array_default_result conf key dflt l xs :
  conf_array_default conf key dflt = (l, inr xs) →
  (conf !! key = None → xs = dflt) ∧
  (∀ v, conf !! key = Some v → np_array v = Some xs).
Proof.
  unfold conf_array_default.
  destruct (conf !! key) as [v|]; intros Hrun.
  - apply or_raise_inr in Hrun as [Hv _]. split; [done|]. by intros ? [= <-].
  - apply ret_inr in Hrun as [<- _]. done.
Qed.

(** The calls [main] makes once the fit is under way. *)
Definition is_late_call (ev : event) : Prop :=
  match ev with
  | CallGuessSky _ | CallDDTModel _ _ _ | CallFitModelAllEpoch _ _
  | CallEvaluate _ _ _ _ | CallFitPosition _ _ _ _ _ => True
  | _ => False
  end.

(** The index of the cube whose header is read (line 50). *)
Definition header_index (master_final_ref : pynum) : pynum :=
  if ge_zero master_final_ref then master_final_ref else PyInt 0.

(** No list, string or dictionary of JSON can be indexed with a [float]. *)
Lemma index_json_float l x log v : index_json l (PyFloat x) ≠ (log, inr v).
Proof. by destruct l. Qed.

Section main_extras.
Context `{!Collaborators}.

(** What the file reads of [load_data] are given. *)
Definition read_ok (conf : gmap string json) (ev : event) : Prop :=
  match ev with
  | CallReadHeader path =>
      ∃ in_cube fr m,
        conf !! "IN_CUBE" = Some in_cube ∧
        conf !! "PARAM_FINAL_REF" = Some fr ∧ sub_one fr = Some m ∧
        index_json in_cube (header_index m) = ([], inr path)
  | CallReadDataset paths => conf !! "IN_CUBE" = Some paths
  | _ => False
  end.

Lemma load_data_reads conf : all_calls (read_ok conf) (load_data conf).
Proof.
  unfold load_data, getitem, call_read_header, call_read_dataset.
  apply all_calls_bind; [apply all_calls_or_raise|]. intros ? apodizer _.
  destruct apodizer; [apply all_calls_raise|].
  apply all_calls_bind; [apply all_calls_or_raise|]. intros ? sp _.
  apply all_calls_bind; [apply all_calls_or_raise|]. intros ? fr [Hfr _]%or_raise_inr.
  apply all_calls_bind; [apply all_calls_or_raise|]. intros ? n [Hn _]%or_raise_inr.
  apply all_calls_bind; [apply all_calls_or_raise|]. intros ? in_cube [Hin _]%or_raise_inr.
  apply all_calls_bind; [apply all_calls_index_json|]. intros lp path Hpath.
  assert (lp = []) as ->.
  { pose proof (index_json_calls in_cube (header_index n)) as Hc.
    unfold header_index in Hc. by rewrite Hpath in Hc. }
  apply all_calls_bind.
  { apply all_calls_bind; [|intros; apply all_calls_ret].
    apply all_calls_emit. simpl. by exists in_cube, fr, n. }
  intros ? ? _. apply all_calls_bind.
  { apply all_calls_bind; [|intros; apply all_calls_ret]. by apply all_calls_emit. }
  intros ? ? _. repeat all_calls_step.
Qed.

Lemma psf_parameters_only_call conf d w :
  all_calls (λ ev, ∃ es, ev = CallParamsFromGs es (wave d) w)
    (psf_parameters conf d w).
Proof.
  unfold psf_parameters, getitem, call_params_from_gs.
  repeat first [ all_calls_step | apply all_calls_emit; eauto ].
Qed.

(** What the two calls of the ADR step are given. *)
Definition adr_ok (conf : gmap string json) (ev : event) : Prop :=
  match ev with
  | CallDifferentialRefraction airmass p t h _ _ =>
      (∃ v, conf !! "PARAM_AIRMASS" = Some v ∧ np_array v = Some airmass) ∧
      ((conf !! "PARAM_P" = None → p = replicate (length airmass) 615%float) ∧
       (∀ v, conf !! "PARAM_P" = Some v → np_array v = Some p)) ∧
      ((conf !! "PARAM_T" = None → t = replicate (length airmass) 2%float) ∧
       (∀ v, conf !! "PARAM_T" = Some v → np_array v = Some t)) ∧
      ((conf !! "PARAM_H" = None → h = replicate (length airmass) 0%float) ∧
       (∀ v, conf !! "PARAM_H" = Some v → np_array v = Some h))
  | CallParalacticAngle airmass ha dec tilt =>
      (∃ v, conf !! "PARAM_AIRMASS" = Some v ∧ np_array v = Some airmass) ∧
      (∃ v degrees, conf !! "PARAM_HA" = Some v ∧ np_array v = Some degrees ∧
                    ha = deg2rad <$> degrees) ∧
      (∃ v degrees, conf !! "PARAM_DEC" = Some v ∧ np_array v = Some degrees ∧
                    dec = deg2rad <$> degrees) ∧
      conf !! "PARAM_MLA_TILT" = Some tilt
  | _ => False
  end.

Lemma adr_offsets_inputs conf d w : all_calls (adr_ok conf) (adr_offsets conf d w).
Proof.
  unfold adr_offsets, getitem, call_differential_refraction, call_paralactic_angle.
  apply all_calls_bind; [apply all_calls_conf_array|].
  intros ? airmass Ha%conf_array_result.
  apply all_calls_bind; [apply all_calls_conf_array_default|].
  intros ? p Hp%conf_array_default_result.
  apply all_calls_bind; [apply all_calls_conf_array_default|].
  intros ? t Ht%conf_array_default_result.
  apply all_calls_bind; [apply all_calls_conf_array_default|].
  intros ? h Hh%conf_array_default_result.
  apply all_calls_bind; [apply all_calls_conf_array|].
  intros ? ha (vha & Hha & Hha')%conf_array_result.
  apply all_calls_bind; [apply all_calls_conf_array|].
  intros ? dec (vdec & Hdec & Hdec')%conf_array_result.
  apply all_calls_bind; [apply all_calls_or_raise|].
  intros ? tilt [Htilt _]%or_raise_inr.
  apply all_calls_bind.
  { apply all_calls_bind; [|intros; apply all_calls_ret].
    apply all_calls_emit. simpl. destruct Hp, Ht, Hh. by split_and!. }
  intros ? ? _. apply all_calls_bind; [apply all_calls_or_raise|]. intros ? ? _.
  apply all_calls_bind; [|intros; apply all_calls_ret].
  apply all_calls_bind; [|intros; apply all_calls_ret].
  apply all_calls_emit. simpl. split_and!; eauto.
Qed.

(** Where a call of [main] comes from. *)
Definition call_origin (conf : gmap string json) (ev : event) : Prop :=
  read_ok conf ev ∨
  (∃ l d w, load_data conf = (l, inr (d, w)) ∧
            ((∃ es, ev = CallParamsFromGs es (wave d) w) ∨ adr_ok conf ev)) ∨
  is_late_call ev.

Lemma main_call_origin conf : all_calls (call_origin conf) (main conf).
Proof.
  unfold main. apply all_calls_bind.
  { eapply all_calls_impl; [|apply load_data_reads]. intros ev ?. by left. }
  intros l [d w] Hload. cbn [fst snd]. apply all_calls_bind.
  { eapply all_calls_impl; [|apply psf_parameters_only_call].
    intros ev ?. right; left. exists l, d, w. split; [done|]. by left. }
  intros ? ? _. apply all_calls_bind.
  { eapply all_calls_impl; [|apply adr_offsets_inputs].
    intros ev ?. right; left. exists l, d, w. split; [done|]. by right. }
  intros ? ? _. apply all_calls_bind.
  { unfold call_guess_sky. apply all_calls_bind; [|intros; apply all_calls_ret].
    apply all_calls_emit. by right; right. }
  intros ? ? _. apply all_calls_bind; [apply all_calls_conf_array_default|].
  intros ? xi _. apply all_calls_bind; [apply all_calls_conf_array_default|].
  intros ? yi _. unfold getitem. do 2 (apply all_calls_bind; [apply all_calls_or_raise|];
    intros ? ? _).
  apply all_calls_bind; [apply all_calls_emit; by right; right|].
  intros ? ? _. apply all_calls_bind.
  { unfold call_fit_model_all_epoch. apply all_calls_bind; [|intros; apply all_calls_ret].
    apply all_calls_emit. by right; right. }
  intros ? ? _. eapply all_calls_impl; [|apply registration_stage_calls].
  intros [] ?; try done; by right; right.
Qed.

Lemma main_call_from conf ev : ev ∈ calls (main conf) → call_origin conf ev.
Proof. intros Hev. by eapply (proj1 (Forall_forall _ _)); [apply main_call_origin|]. Qed.

(** X10.  The header is read from one cube of [IN_CUBE], at an index that
    is an integer and not negative: [PARAM_FINAL_REF - 1] when that is 0 or
    more, and 0 when it is negative or NaN (so for an integer
    [PARAM_FINAL_REF] the index is [PARAM_FINAL_REF - 1] from 1 on and 0
    below, and a fractional [PARAM_FINAL_REF] below 1 reads the first cube);
    the dataset is read from the whole of [IN_CUBE]. *)
Theorem files_read conf ev :
  ev ∈ calls (main conf) →
  is_read_call ev →
  match ev with
  | CallReadHeader path =>
      ∃ in_cube fr m k,
        conf !! "IN_CUBE" = Some in_cube ∧
        conf !! "PARAM_FINAL_REF" = Some fr ∧ sub_one fr = Some m ∧
        (if ge_zero m then m else PyInt 0) = PyInt k ∧ (0 ≤ k)%Z ∧
        (∀ n, fr = JInt n → k = if (1 <=? n)%Z then (n - 1)%Z else 0%Z) ∧
        index_json in_cube (PyInt k) = ([], inr path)
  | CallReadDataset paths => conf !! "IN_CUBE" = Some paths
  | _ => False
  end.
Proof.
  intros [Hread|[(l & d & w & _ & [[es ->]|Hadr])|Hlate]]%main_call_from Hr;
    [|done|by destruct ev|by destruct ev].
  destruct ev; try done. destruct Hread as (in_cube & fr & m & ? & ? & Hm & Hidx).
  unfold header_index in Hidx.
  assert (∃ k, (if ge_zero m then m else PyInt 0) = PyInt k) as [k Hk].
  { destruct (ge_zero m); [|by eexists].
    destruct m as [n|x]; [by eexists|]. by apply index_json_float in Hidx. }
  exists in_cube, fr, m, k. rewrite Hk in Hidx. split_and!; try done.
  - destruct (ge_zero m) eqn:Hge; [|injection Hk as <-; lia].
    subst m. simpl in Hge. lia.
  - intros n ->. injection Hm as <-. simpl in Hk.
    destruct (Z.leb_spec 0 (n - 1)), (Z.leb_spec 1 n); injection Hk as <-; lia.
Qed.

(** X11.  Differential refraction is computed for the configured air masses
    with pressure 615, temperature 2 and humidity 0 for every epoch where
    [PARAM_P], [PARAM_T], [PARAM_H] are absent, and with the configured
    arrays where they are present. *)
Theorem atmosphere_defaults conf airmass p t h waves w :
  CallDifferentialRefraction airmass p t h waves w ∈ calls (main conf) →
  (∃ v, conf !! "PARAM_AIRMASS" = Some v ∧ np_array v = Some airmass) ∧
  ((conf !! "PARAM_P" = None → p = replicate (length airmass) 615%float) ∧
   (∀ v, conf !! "PARAM_P" = Some v → np_array v = Some p)) ∧
  ((conf !! "PARAM_T" = None → t = replicate (length airmass) 2%float) ∧
   (∀ v, conf !! "PARAM_T" = Some v → np_array v = Some t)) ∧
  ((conf !! "PARAM_H" = None → h = replicate (length airmass) 0%float) ∧
   (∀ v, conf !! "PARAM_H" = Some v → np_array v = Some h)).
Proof.
  intros [Hread|[(l & d & w' & _ & [[es Heq]|Hadr])|Hlate]]%main_call_from; done.
Qed.

(** X12.  The parallactic angle is computed from the configured hour angles
    and declinations converted from degrees to radians, with the configured
    air masses and tilt. *)
Theorem angles_in_radians conf airmass ha dec tilt :
  CallParalacticAngle airmass ha dec tilt ∈ calls (main conf) →
  (∃ v, conf !! "PARAM_AIRMASS" = Some v ∧ np_array v = Some airmass) ∧
  (∃ v degrees, conf !! "PARAM_HA" = Some v ∧ np_array v = Some degrees ∧
                ha = deg2rad <$> degrees) ∧
  (∃ v degrees, conf !! "PARAM_DEC" = Some v ∧ np_array v = Some degrees ∧
                dec = deg2rad <$> degrees) ∧
  conf !! "PARAM_MLA_TILT" = Some tilt.
Proof.
  intros [Hread|[(l & d & w' & _ & [[es Heq]|Hadr])|Hlate]]%main_call_from; done.
Qed.
End main_extras.

(** ** Successful runs, and what they need *)

(** The keys [main] reads with [conf[key]]. *)
Definition required_keys : list string :=
  ["PARAM_SPAXEL_SIZE"; "PARAM_FINAL_REF"; "IN_CUBE"; "PARAM_PSF_TYPE";
   "PARAM_PSF_ES"; "PARAM_AIRMASS"; "PARAM_HA"; "PARAM_DEC"; "PARAM_MLA_TILT";
   "MU_GALAXY_XY_PRIOR"; "MU_GALAXY_LAMBDA_PRIOR"].

Lemma conf_array_calls conf key l xs : conf_array conf key = (l, inr xs) → l = [].
Proof. unfold conf_array, getitem. intros Hrun. inv_run. by subst. Qed.

Lemma conf_array_default_calls conf key dflt l xs :
  conf_array_default conf key dflt = (l, inr xs) → l = [].
Proof.
  unfold conf_array_default. destruct (conf !! key); intros Hrun; inv_run; by subst.
Qed.

Section main_runs.
Context `{!Collaborators}.

(** A successful [load_data]: two file reads, at least one epoch, and the
    final-reference flags as configured. *)
Lemma load_data_ok conf l d w :
  load_data conf = (l, inr (d, w)) →
  (∃ path in_cube, l = [CallReadHeader path; CallReadDataset in_cube]) ∧
  is_final_ref d = get_default conf "PARAM_IS_FINAL_REF" JNull ∧
  (0 < nt d)%nat ∧
  is_Some (conf !! "PARAM_SPAXEL_SIZE") ∧
  is_Some (conf !! "PARAM_FINAL_REF") ∧
  is_Some (conf !! "IN_CUBE").
Proof.
  unfold load_data, getitem, call_read_header, call_read_dataset. intros Hrun.
  apply bind_inr in Hrun as (l1 & apodizer & l2 & Hap & Hrun & ->).
  apply or_raise_inr in Hap as [_ ->].
  destruct apodizer; [discriminate|].
  inv_run. subst.
  match goal with H : (_, _) = (_, _) |- _ => injection H as <- <- end.
  match goal with H : index_json ?c ?i = (?lp, inr _) |- _ =>
    pose proof (index_json_calls c i) as Hc; rewrite H in Hc; simpl in Hc; subst lp
  end.
  split_and!; eauto.
  simpl. unfold neutralise_nan, zero_where, nan_mask, zip4, map4,
    select_wavelengths, slice_wave. simpl.
  rewrite length_zip_with, !length_fmap.
  match goal with H : first_spectrum ?a = Some _ |- _ => destruct a; [done|] end.
  simpl. lia.
Qed.

Lemma psf_parameters_ok conf d w l r :
  psf_parameters conf d w = (l, inr r) →
  (∃ es, l = [CallParamsFromGs es (wave d) w]) ∧
  is_Some (conf !! "PARAM_PSF_TYPE") ∧ is_Some (conf !! "PARAM_PSF_ES").
Proof.
  unfold psf_parameters, getitem, call_params_from_gs. intros Hrun.
  apply bind_inr in Hrun as (l1 & psf_type & l2 & Hty & Hrun & ->).
  apply or_raise_inr in Hty as [Hty ->].
  destruct (is_str "GS-PSF" psf_type); [|destruct (is_str "G-PSF" psf_type); discriminate].
  inv_run. subst. split_and!; eauto.
Qed.

Lemma adr_offsets_ok conf d w l r :
  adr_offsets conf d w = (l, inr r) →
  (∃ airmass p t h ha dec tilt,
     l = [CallDifferentialRefraction airmass p t h (wave d) w;
          CallParalacticAngle airmass ha dec tilt]) ∧
  is_Some (conf !! "PARAM_AIRMASS") ∧ is_Some (conf !! "PARAM_HA") ∧
  is_Some (conf !! "PARAM_DEC") ∧ is_Some (conf !! "PARAM_MLA_TILT").
Proof.
  unfold adr_offsets, getitem, call_differential_refraction, call_paralactic_angle.
  intros Hrun. inv_run. subst.
  repeat match goal with
  | H : conf_array_default _ _ _ = _ |- _ =>
      rewrite (conf_array_default_calls _ _ _ _ _ H); clear H
  | H : conf_array _ _ = _ |- _ =>
      rewrite (conf_array_calls _ _ _ _ H);
      apply conf_array_result in H as (? & ? & ?)
  end.
  simpl. split_and!; eauto 10.
Qed.

(** A successful [main], stage by stage. *)
Lemma main_ok conf log s :
  main conf = (log, inr s) →
  ∃ l0 d w l1 psf_par l2 adr xi yi mu_xy mu_wave lr,
    load_data conf = (l0, inr (d, w)) ∧
    psf_parameters conf d w = (l1, inr psf_par) ∧
    adr_offsets conf d w = (l2, inr adr) ∧
    is_Some (conf !! "MU_GALAXY_XY_PRIOR") ∧
    is_Some (conf !! "MU_GALAXY_LAMBDA_PRIOR") ∧
    registration_stage xi yi d
      (fit_model_all_epoch
         (DDTModel_init (nt d, nw d) psf_par.1 psf_par.2 adr.1 adr.2
            (spaxel_size d) mu_xy mu_wave xi yi (guess_sky d 2)) d)
      = (lr, inr s) ∧
    log = l0 ++ l1 ++ l2 ++
          [CallGuessSky d; CallDDTModel (nt d, nw d) xi yi;
           CallFitModelAllEpoch
             (DDTModel_init (nt d, nw d) psf_par.1 psf_par.2 adr.1 adr.2
                (spaxel_size d) mu_xy mu_wave xi yi (guess_sky d 2)) d] ++ lr.
Proof.
  unfold main, getitem, call_guess_sky, call_fit_model_all_epoch, initial_ctr.
  intros Hrun.
  apply bind_inr in Hrun as (l0 & [d w] & l0' & Hload & Hrun & ->).
  cbn [fst snd] in Hrun.
  apply bind_inr in Hrun as (l1 & psf_par & l1' & Hpsf & Hrun & ->).
  apply bind_inr in Hrun as (l2 & adr & l2' & Hadr & Hrun & ->).
  inv_run. subst.
  repeat match goal with
  | H : conf_array_default _ _ _ = _ |- _ =>
      rewrite (conf_array_default_calls _ _ _ _ _ H); clear H
  end.
  do 12 eexists. split_and!; eauto.
Qed.

(** X13.  A run of [main] that completes has made, in this order, one header
    read, one dataset read, one call each of [params_from_gs],
    [differential_refraction], [calc_paralactic_angle], [guess_sky], the
    [DDTModel] constructor and [fit_model_all_epoch], and after these only
    renderings and position searches of the registration; the data it ends
    with is the data the fit was given, weights included. *)
Theorem order_of_calls conf s :
  outcome (main conf) = inr s →
  ∃ path in_cube es airmass p t h ha dec tilt d w m0 xi yi lr,
    calls (main conf) =
      [CallReadHeader path; CallReadDataset in_cube;
       CallParamsFromGs es (wave d) w;
       CallDifferentialRefraction airmass p t h (wave d) w;
       CallParalacticAngle airmass ha dec tilt;
       CallGuessSky d;
       CallDDTModel (nt d, nw d) xi yi;
       CallFitModelAllEpoch m0 d] ++ lr ∧
    Forall (λ ev, event_epoch ev ≠ None) lr ∧
    rs_data s = d.
Proof.
  destruct (main conf) as [log r] eqn:Hmain. simpl. intros ->.
  destruct (main_ok _ _ _ Hmain)
    as (l0 & d & w & l1 & psf_par & l2 & adr & xi & yi & mu_xy & mu_wave & lr
        & Hload & Hpsf & Hadr & _ & _ & Hstage & ->).
  destruct (load_data_ok _ _ _ _ Hload) as ((path & in_cube & ->) & _).
  destruct (psf_parameters_ok _ _ _ _ _ Hpsf) as ((es & ->) & _).
  destruct (adr_offsets_ok _ _ _ _ _ Hadr)
    as ((airmass & p & t & h & ha & dec & tilt & ->) & _).
  exists path, in_cube, es, airmass, p, t, h, ha, dec, tilt, d, w.
  eexists _, xi, yi, lr. split_and!; [done| |by eapply stage_data_restored].
  pose proof (registration_stage_calls xi yi d
    (fit_model_all_epoch
       (DDTModel_init (nt d, nw d) psf_par.1 psf_par.2 adr.1 adr.2
          (spaxel_size d) mu_xy mu_wave xi yi (guess_sky d 2)) d)) as Hcalls.
  unfold all_calls, calls in Hcalls. by rewrite Hstage in Hcalls.
Qed.

(** X14.  The data the joint fit is given holds no NaN. *)
Theorem fitted_data_has_no_nan conf m d t l y x v :
  CallFitModelAllEpoch m d ∈ calls (main conf) →
  get4 (data d) t l y x = Some v →
  PrimFloat.is_nan v = false.
Proof.
  intros (l0 & w & Hload)%main_call.
  destruct (load_data_result _ _ _ _ Hload) as (_ & in_cube & _ & -> & _).
  rewrite get4_neutralise_data.
  destruct (get4 _ t l y x) as [u|]; [|done]. simpl. intros [= <-].
  by destruct (PrimFloat.is_nan u) eqn:Hu.
Qed.


(** X16.  A configuration that lacks one of the keys [main] reads with
    [conf[key]] never gets as far as fitting: [main] ends in an exception
    and has called neither the joint fit nor the registration. *)
Theorem required_keys_are_needed conf key :
  key ∈ required_keys →
  conf !! key = None →
  (∃ e, outcome (main conf) = inl e) ∧
  all_calls (λ ev, ¬ is_fit_call ev) (main conf).
Proof.
  intros Hkey Hnone.
  assert (∀ k, k ∈ required_keys → is_Some (conf !! k) → k ≠ key) as Hne.
  { intros k _ [v Hv] ->. congruence. }
  assert (∀ (P : Prop), Forall (λ k, is_Some (conf !! k)) required_keys → P) as Habsurd.
  { intros P Hall. rewrite Forall_forall in Hall.
    destruct (Hall key Hkey) as [v Hv]. congruence. }
  split.
  - destruct (main conf) as [log [e|s]] eqn:Hmain; [by exists e|].
    destruct (main_ok _ _ _ Hmain)
      as (l0 & d & w & l1 & psf_par & l2 & adr & xi & yi & mu_xy & mu_wave & lr
          & Hload & Hpsf & Hadr & ? & ? & _).
    destruct (load_data_ok _ _ _ _ Hload) as (_ & _ & _ & ? & ? & ?).
    destruct (psf_parameters_ok _ _ _ _ _ Hpsf) as (_ & ? & ?).
    destruct (adr_offsets_ok _ _ _ _ _ Hadr) as (_ & ? & ? & ? & ?).
    apply Habsurd. unfold required_keys. by repeat constructor.
  - unfold main. apply all_calls_bind.
    { eapply all_calls_impl; [|apply load_data_calls]. intros []; simpl; tauto. }
    intros l [d w] Hload. cbn [fst snd].
    destruct (load_data_ok _ _ _ _ Hload) as (_ & _ & _ & ? & ? & ?).
    apply all_calls_bind.
    { eapply all_calls_impl; [|apply psf_parameters_calls]. intros []; simpl; tauto. }
    intros ? ? (_ & ? & ?)%psf_parameters_ok. apply all_calls_bind.
    { eapply all_calls_impl; [|apply adr_offsets_calls]. intros []; simpl; tauto. }
    intros ? ? (_ & ? & ? & ? & ?)%adr_offsets_ok. apply all_calls_bind.
    { unfold call_guess_sky. apply all_calls_bind; [|intros; apply all_calls_ret].
      apply all_calls_emit. simpl. tauto. }
    intros ? ? _. apply all_calls_bind; [apply all_calls_conf_array_default|].
    intros ? xi _. apply all_calls_bind; [apply all_calls_conf_array_default|].
    intros ? yi _. unfold getitem.
    apply all_calls_bind; [apply all_calls_or_raise|]. intros ? ? [? _]%or_raise_inr.
    apply all_calls_bind; [apply all_calls_or_raise|]. intros ? ? [? _]%or_raise_inr.
    apply Habsurd. unfold required_keys. by repeat constructor.
Qed.

(** X17.  When the missing key is [PARAM_SPAXEL_SIZE], [PARAM_FINAL_REF] or
    [IN_CUBE], [main] ends before it has read any file: it makes no call at
    all. *)
Theorem first_keys_precede_reading conf key :
  key ∈ ["PARAM_SPAXEL_SIZE"; "PARAM_FINAL_REF"; "IN_CUBE"] →
  conf !! key = None →
  calls (main conf) = [] ∧ ∃ e, outcome (main conf) = inl e.
Proof.
  intros Hkey Hnone.
  assert (∃ e, load_data conf = ([], inl e)) as [e Hload].
  { unfold load_data, getitem.
    destruct (ge_two _) as [[|]|]; simpl; [eauto| |eauto].
    destruct (conf !! "PARAM_SPAXEL_SIZE") as [sp|] eqn:Hsp; simpl; [|eauto].
    destruct (conf !! "PARAM_FINAL_REF") as [fr|] eqn:Hfr; simpl; [|eauto].
    destruct (sub_one fr) as [n|]; simpl; [|eauto].
    destruct (conf !! "IN_CUBE") as [in_cube|] eqn:Hin; simpl; [|eauto].
    repeat (apply elem_of_cons in Hkey as [->|Hkey]; [congruence|]).
    by apply elem_of_nil in Hkey. }
  unfold main. rewrite (bind_inl _ _ _ _ Hload). eauto.
Qed.
End main_runs.

(** ** Small runs for the edges *)

Module Edge.

(** Model flux with a NaN in it. *)
Definition nan_plane : plane :=
  [nan; 1; 1; 1; 1]%float :: replicate 4 (replicate 5 1%float).

(** As [Demo.collaborators], but epoch 1 renders with a NaN and the search
    on epoch 2 returns a NaN coordinate. *)
Definition collaborators : Collaborators := {|
  read_select_header_keys := read_select_header_keys (Collaborators := Demo.collaborators);
  read_dataset := read_dataset (Collaborators := Demo.collaborators);
  params_from_gs := params_from_gs (Collaborators := Demo.collaborators);
  differential_refraction := differential_refraction (Collaborators := Demo.collaborators);
  calc_paralactic_angle := calc_paralactic_angle (Collaborators := Demo.collaborators);
  np_sin := np_sin (Collaborators := Demo.collaborators);
  np_cos := np_cos (Collaborators := Demo.collaborators);
  guess_sky := guess_sky (Collaborators := Demo.collaborators);
  DDTModel_init := DDTModel_init (Collaborators := Demo.collaborators);
  fit_model_all_epoch := fit_model_all_epoch (Collaborators := Demo.collaborators);
  evaluate := λ _ i_t _ _,
    match i_t with 1%nat => [nan_plane] | _ => [Demo.peaked_plane] end;
  fit_position := λ _ _ i_t _,
    match i_t with
    | 2%nat => ((nan, 0)%float, false)
    | _ => ((0.5, 0.25)%float, true)
    end;
|}.

Definition stage : M reg_state :=
  @registration_stage collaborators Demo.zeros Demo.zeros Demo.ddtdata Demo.model.

Definition stage_calls : list event := Eval vm_compute in calls stage.

Definition stage_end : reg_state :=
  Eval vm_compute in
    match outcome stage with
    | inr s => s
    | inl _ => {| rs_data := Demo.ddtdata; rs_model := Demo.model; rs_include := [] |}
    end.

(** Two epochs of 3 x 3 spaxels: nine spaxels cannot give 20. *)
Definition ramp_plane : plane := [[0; 1; 2]; [3; 4; 5]; [6; 7; 8]]%float.

Definition small_collaborators : Collaborators := {|
  read_select_header_keys := read_select_header_keys (Collaborators := Demo.collaborators);
  read_dataset := read_dataset (Collaborators := Demo.collaborators);
  params_from_gs := params_from_gs (Collaborators := Demo.collaborators);
  differential_refraction := differential_refraction (Collaborators := Demo.collaborators);
  calc_paralactic_angle := calc_paralactic_angle (Collaborators := Demo.collaborators);
  np_sin := np_sin (Collaborators := Demo.collaborators);
  np_cos := np_cos (Collaborators := Demo.collaborators);
  guess_sky := guess_sky (Collaborators := Demo.collaborators);
  DDTModel_init := DDTModel_init (Collaborators := Demo.collaborators);
  fit_model_all_epoch := fit_model_all_epoch (Collaborators := Demo.collaborators);
  evaluate := λ _ _ _ _, [ramp_plane];
  fit_position := fit_position (Collaborators := Demo.collaborators);
|}.

Definition small_ddtdata : DDTData := {|
  data := replicate 2 [replicate 3 (replicate 3 3%float)];
  weight := replicate 2 [replicate 3 (replicate 3 2%float)];
  wave := [3200%float];
  is_final_ref := JList [JBool true; JBool true];
  master_final_ref := PyInt 0;
  header := ∅;
  spaxel_size := JFloat 0.5;
  nt := 2; nw := 1; ny := 3; nx := 3;
|}.

Definition small_model : DDTModel := {|
  galaxy := []; sn := []; sky := [];
  data_xctr := [0; 0]%float; data_yctr := [0; 0]%float;
  psf := []; adr_dx := []; adr_dy := [];
|}.

Definition small_stage : M reg_state :=
  @registration_stage small_collaborators [0; 0]%float [0; 0]%float
    small_ddtdata small_model.

Definition small_stage_calls : list event := Eval vm_compute in calls small_stage.

Definition small_stage_end : reg_state :=
  Eval vm_compute in
    match outcome small_stage with
    | inr s => s
    | inl _ => {| rs_data := small_ddtdata; rs_model := small_model; rs_include := [] |}
    end.

(** [Demo.ddtdata] with no final reference at all, and with no flags. *)
Definition with_flags (flags : json) : DDTData :=
  {| data := data Demo.ddtdata; weight := weight Demo.ddtdata;
     wave := wave Demo.ddtdata; is_final_ref := flags;
     master_final_ref := master_final_ref Demo.ddtdata;
     header := header Demo.ddtdata; spaxel_size := spaxel_size Demo.ddtdata;
     nt := nt Demo.ddtdata; nw := nw Demo.ddtdata;
     ny := ny Demo.ddtdata; nx := nx Demo.ddtdata |}.

Definition idle_ddtdata : DDTData := with_flags (JList (replicate 5 (JBool false))).
Definition unflagged_ddtdata : DDTData := with_flags JNull.

(** [Demo.conf] without one key. *)
Definition conf_without (key : string) : gmap string json := delete key Demo.conf.

(** The first small configuration with a fractional [PARAM_FINAL_REF]. *)
Definition conf_half : gmap string json :=
  <["PARAM_FINAL_REF" := JFloat 0.5%float]> Demo.conf.

Definition main_end : reg_state :=
  Eval vm_compute in
    match outcome (@main Demo.collaborators Demo.conf) with
    | inr s => s
    | inl _ => {| rs_data := Demo.ddtdata; rs_model := Demo.model; rs_include := [] |}
    end.

End Edge.

(** ** The further properties on the small runs *)

Lemma edge_stage_run : Edge.stage = (Edge.stage_calls, inr Edge.stage_end).
Proof. vm_compute. reflexivity. Qed.

Lemma demo_stage_run : Demo.stage = (Demo.stage_calls, inr Demo.stage_end).
Proof. vm_compute. reflexivity. Qed.

Lemma small_stage_run :
  Edge.small_stage = (Edge.small_stage_calls, inr Edge.small_stage_end).
Proof. vm_compute. reflexivity. Qed.

Lemma edge_evaluate_1 :
  CallEvaluate 1 (centred_coords 5 0) (centred_coords 5 0) [Edge.nan_plane]
    ∈ Edge.stage_calls.
Proof. apply (list_elem_of_lookup_2 _ 0). vm_compute. reflexivity. Qed.

Lemma edge_fit_position_2 :
  CallFitPosition 2 Demo.weights_at_2 100 (nan, 0)%float false ∈ Edge.stage_calls.
Proof. apply (list_elem_of_lookup_2 _ 2). vm_compute. reflexivity. Qed.

Lemma small_evaluate_1 :
  CallEvaluate 1 (centred_coords 3 0) (centred_coords 3 0) [Edge.ramp_plane]
    ∈ Edge.small_stage_calls.
Proof. apply (list_elem_of_lookup_2 _ 0). vm_compute. reflexivity. Qed.

(** X1: epoch 1 renders with a NaN. *)
Lemma nan_flux_is_skipped_witness :
  existsb PrimFloat.is_nan (concat (sum_axis0 5 5 [Edge.nan_plane])) = true ∧
  (∀ W it pos conv, CallFitPosition 1 W it pos conv ∉ Edge.stage_calls) ∧
  data_xctr (rs_model Edge.stage_end) !! 1%nat = data_xctr Demo.model !! 1%nat ∧
  data_yctr (rs_model Edge.stage_end) !! 1%nat = data_yctr Demo.model !! 1%nat ∧
  rs_include Edge.stage_end !! 1%nat = Some true.
Proof.
  split; [vm_compute; reflexivity|].
  apply (nan_flux_is_skipped (H := Edge.collaborators) Demo.zeros Demo.zeros
           Demo.ddtdata Demo.model Edge.stage_calls Edge.stage_end 1
           (centred_coords 5 0) (centred_coords 5 0) [Edge.nan_plane]).
  - exact edge_stage_run.
  - exact edge_evaluate_1.
  - vm_compute; reflexivity.
Defined.

(** X2: nine spaxels. *)
Lemma small_map_is_skipped_witness :
  (length (concat (sum_axis0 3 3 [Edge.ramp_plane])) < 20)%nat ∧
  (∀ W it pos conv, CallFitPosition 1 W it pos conv ∉ Edge.small_stage_calls) ∧
  data_xctr (rs_model Edge.small_stage_end) !! 1%nat
    = data_xctr Edge.small_model !! 1%nat ∧
  data_yctr (rs_model Edge.small_stage_end) !! 1%nat
    = data_yctr Edge.small_model !! 1%nat ∧
  rs_include Edge.small_stage_end !! 1%nat = Some true.
Proof.
  split; [vm_compute; lia|].
  apply (small_map_is_skipped (H := Edge.small_collaborators) [0; 0]%float [0; 0]%float
           Edge.small_ddtdata Edge.small_model Edge.small_stage_calls
           Edge.small_stage_end 1
           (centred_coords 3 0) (centred_coords 3 0) [Edge.ramp_plane]).
  - exact small_stage_run.
  - exact small_evaluate_1.
  - vm_compute; lia.
Defined.

(** X3: the search on epoch 2 returns a NaN coordinate. *)
Lemma nan_distance_is_excluded_witness :
  PrimFloat.is_nan (move_dist (nan, 0)%float 0 0) = true ∧
  data_xctr (rs_model Edge.stage_end) !! 2%nat = data_xctr Demo.model !! 2%nat ∧
  data_yctr (rs_model Edge.stage_end) !! 2%nat = data_yctr Demo.model !! 2%nat ∧
  rs_include Edge.stage_end !! 2%nat = Some false.
Proof.
  split; [vm_compute; reflexivity|].
  apply (nan_distance_is_excluded (H := Edge.collaborators) Demo.zeros Demo.zeros
           Demo.ddtdata Demo.model Edge.stage_calls Edge.stage_end 2
           Demo.weights_at_2 100 (nan, 0)%float false 0%float 0%float).
  - exact edge_stage_run.
  - exact edge_fit_position_2.
  - vm_compute; reflexivity.
  - vm_compute; reflexivity.
  - vm_compute; reflexivity.
Defined.


(** X5: the rendering of epoch 1 in the first small run. *)
Lemma rendering_coordinates_witness :
  ∃ xc yc,
    data_xctr Demo.model !! 1%nat = Some xc ∧ data_yctr Demo.model !! 1%nat = Some yc ∧
    centred_coords 5 0 = centred_coords (nx Demo.ddtdata) xc ∧
    centred_coords 5 0 = centred_coords (ny Demo.ddtdata) yc ∧
    length (centred_coords 5 0) = nx Demo.ddtdata ∧
    length (centred_coords 5 0) = ny Demo.ddtdata.
Proof.
  apply (rendering_coordinates (H := Demo.collaborators) Demo.zeros Demo.zeros
           Demo.ddtdata Demo.model Demo.stage_calls Demo.stage_end 1
           (centred_coords 5 0) (centred_coords 5 0) [Demo.flat_plane]).
  - exact demo_stage_run.
  - exact demo_evaluate_1.
Defined.

(** X6: the calls about epoch 2 in the first small run. *)
Lemma calls_about_an_epoch_witness :
  Demo.stage = (Demo.stage_calls, inr Demo.stage_end) ∧
  (calls_about 2 Demo.stage_calls = [] ∨
   (∃ xs ys mm, calls_about 2 Demo.stage_calls = [CallEvaluate 2 xs ys mm]) ∨
   (∃ xs ys mm W pos conv,
      calls_about 2 Demo.stage_calls =
        [CallEvaluate 2 xs ys mm; CallFitPosition 2 W 100 pos conv])).
Proof.
  split; [exact demo_stage_run|].
  apply (calls_about_an_epoch (H := Demo.collaborators) Demo.zeros Demo.zeros
           Demo.ddtdata Demo.model Demo.stage_calls Demo.stage_end 2).
  exact demo_stage_run.
Defined.

(** X7: the model after the first small run. *)
Lemma stage_keeps_model_parameters_witness :
  Demo.stage = (Demo.stage_calls, inr Demo.stage_end) ∧
  galaxy (rs_model Demo.stage_end) = galaxy Demo.model ∧
  length (data_xctr (rs_model Demo.stage_end)) = 5%nat ∧
  length (rs_include Demo.stage_end) = 5%nat.
Proof.
  split; [exact demo_stage_run|].
  destruct (stage_keeps_model_parameters (H := Demo.collaborators) Demo.zeros Demo.zeros
              Demo.ddtdata Demo.model Demo.stage_calls Demo.stage_end demo_stage_run)
    as (Hg & _ & _ & _ & _ & _ & Hx & _ & Hinc).
  by split_and!.
Defined.

Lemma idle_flags i :
  (i < nt Edge.idle_ddtdata)%nat →
  ∃ fr, final_ref_at Edge.idle_ddtdata i = ([], inr fr) ∧
        negb fr || is_master i (master_final_ref Edge.idle_ddtdata) = true.
Proof.
  intros Hi. exists false.
  destruct i as [|[|[|[|[|i]]]]]; [by vm_compute..|]. simpl in Hi. lia.
Qed.

(** X8: no epoch of the run is a final reference. *)
Lemma nothing_to_register_witness :
  registration_stage (H := Demo.collaborators) Demo.zeros Demo.zeros
    Edge.idle_ddtdata Demo.model =
  ([], inr {| rs_data := Edge.idle_ddtdata; rs_model := Demo.model;
              rs_include := replicate (nt Edge.idle_ddtdata) true |}).
Proof.
  apply (nothing_to_register (H := Demo.collaborators) Demo.zeros Demo.zeros
           Edge.idle_ddtdata Demo.model).
  exact idle_flags.
Defined.

(** X9: no array of flags. *)
Lemma missing_final_ref_flag_is_fatal_witness :
  (0 < nt Edge.unflagged_ddtdata)%nat ∧
  no_final_ref_flag Edge.unflagged_ddtdata 0 ∧
  ∃ e, outcome (registration_stage (H := Demo.collaborators) Demo.zeros Demo.zeros
                  Edge.unflagged_ddtdata Demo.model) = inl e.
Proof.
  assert (0 < nt Edge.unflagged_ddtdata)%nat as Hi by (vm_compute; lia).
  assert (no_final_ref_flag Edge.unflagged_ddtdata 0) as Hno by exact I.
  split; [exact Hi|]. split; [exact Hno|].
  exact (missing_final_ref_flag_is_fatal (H := Demo.collaborators) Demo.zeros Demo.zeros
           Edge.unflagged_ddtdata Demo.model 0 Hi Hno).
Defined.

(** X10: the header of the first small configuration, where
    [PARAM_FINAL_REF] is 1, and of the same configuration with
    [PARAM_FINAL_REF] at 0.5, where [0.5 - 1] is negative and the first cube
    is read as well. *)
Lemma files_read_witness :
  (CallReadHeader (JStr "e0.fits") ∈ calls (main (H := Demo.collaborators) Demo.conf) ∧
   ∃ in_cube fr m k,
     Demo.conf !! "IN_CUBE" = Some in_cube ∧
     Demo.conf !! "PARAM_FINAL_REF" = Some fr ∧ sub_one fr = Some m ∧
     (if ge_zero m then m else PyInt 0) = PyInt k ∧ (0 ≤ k)%Z ∧
     (∀ n, fr = JInt n → k = if (1 <=? n)%Z then (n - 1)%Z else 0%Z) ∧
     index_json in_cube (PyInt k) = ([], inr (JStr "e0.fits"))) ∧
  (CallReadHeader (JStr "e0.fits")
     ∈ calls (main (H := Demo.collaborators) Edge.conf_half) ∧
   ∃ in_cube fr m k,
     Edge.conf_half !! "IN_CUBE" = Some in_cube ∧
     Edge.conf_half !! "PARAM_FINAL_REF" = Some fr ∧ sub_one fr = Some m ∧
     (if ge_zero m then m else PyInt 0) = PyInt k ∧ (0 ≤ k)%Z ∧
     (∀ n, fr = JInt n → k = if (1 <=? n)%Z then (n - 1)%Z else 0%Z) ∧
     index_json in_cube (PyInt k) = ([], inr (JStr "e0.fits"))).
Proof.
  assert (CallReadHeader (JStr "e0.fits")
            ∈ calls (main (H := Demo.collaborators) Demo.conf)) as Hin.
  { apply (list_elem_of_lookup_2 _ 0). vm_compute. reflexivity. }
  assert (CallReadHeader (JStr "e0.fits")
            ∈ calls (main (H := Demo.collaborators) Edge.conf_half)) as Hhalf.
  { apply (list_elem_of_lookup_2 _ 0). vm_compute. reflexivity. }
  split; (split; [done|]).
  - exact (files_read (H := Demo.collaborators) Demo.conf _ Hin I).
  - exact (files_read (H := Demo.collaborators) Edge.conf_half _ Hhalf I).
Defined.

(** With [PARAM_FINAL_REF] at 0.5 the run completes, and no epoch is the
    master: epoch 0 is registered like the other final references. *)
Lemma fractional_final_ref_run :
  ∃ s xs ys mm,
    outcome (main (H := Demo.collaborators) Edge.conf_half) = inr s ∧
    master_final_ref (rs_data s) = PyFloat (-0.5) ∧
    CallEvaluate 0 xs ys mm ∈ calls (main (H := Demo.collaborators) Edge.conf_half).
Proof.
  do 4 eexists. split_and!; [vm_compute; reflexivity|vm_compute; reflexivity|].
  apply (list_elem_of_lookup_2 _ 8). vm_compute. reflexivity.
Qed.

(** X11: no [PARAM_P], [PARAM_T], [PARAM_H] in the first small configuration. *)
Lemma atmosphere_defaults_witness :
  CallDifferentialRefraction (replicate 5 1.5%float) (replicate 5 615%float)
    (replicate 5 2%float) (replicate 5 0%float) [3200%float] (JFloat 5000)
    ∈ calls (main (H := Demo.collaborators) Demo.conf) ∧
  Demo.conf !! "PARAM_P" = None ∧
  replicate 5 615%float = replicate (length (replicate 5 1.5%float)) 615%float.
Proof.
  assert (CallDifferentialRefraction (replicate 5 1.5%float) (replicate 5 615%float)
            (replicate 5 2%float) (replicate 5 0%float) [3200%float] (JFloat 5000)
            ∈ calls (main (H := Demo.collaborators) Demo.conf)) as Hin.
  { apply (list_elem_of_lookup_2 _ 3). vm_compute. reflexivity. }
  assert (Demo.conf !! "PARAM_P" = None) as Hp by (vm_compute; reflexivity).
  split; [exact Hin|]. split; [exact Hp|].
  destruct (atmosphere_defaults (H := Demo.collaborators) Demo.conf _ _ _ _ _ _ Hin)
    as (_ & [Hdefault _] & _).
  exact (Hdefault Hp).
Defined.

(** X12: hour angles of 30 degrees, declinations of 45. *)
Lemma angles_in_radians_witness :
  CallParalacticAngle (replicate 5 1.5%float) (deg2rad <$> replicate 5 30%float)
    (deg2rad <$> replicate 5 45%float) (JFloat 0)
    ∈ calls (main (H := Demo.collaborators) Demo.conf) ∧
  Demo.conf !! "PARAM_MLA_TILT" = Some (JFloat 0).
Proof.
  assert (CallParalacticAngle (replicate 5 1.5%float) (deg2rad <$> replicate 5 30%float)
            (deg2rad <$> replicate 5 45%float) (JFloat 0)
            ∈ calls (main (H := Demo.collaborators) Demo.conf)) as Hin.
  { apply (list_elem_of_lookup_2 _ 4). vm_compute. reflexivity. }
  split; [exact Hin|].
  by destruct (angles_in_radians (H := Demo.collaborators) Demo.conf _ _ _ _ Hin)
    as (_ & _ & _ & ?).
Defined.

(** X13: the first small configuration runs to the end. *)
Lemma order_of_calls_witness :
  outcome (main (H := Demo.collaborators) Demo.conf) = inr Edge.main_end ∧
  ∃ path in_cube es airmass p t h ha dec tilt d w m0 xi yi lr,
    calls (main (H := Demo.collaborators) Demo.conf) =
      [CallReadHeader path; CallReadDataset in_cube;
       CallParamsFromGs es (wave d) w;
       CallDifferentialRefraction airmass p t h (wave d) w;
       CallParalacticAngle airmass ha dec tilt;
       CallGuessSky d;
       CallDDTModel (nt d, nw d) xi yi;
       CallFitModelAllEpoch m0 d] ++ lr ∧
    Forall (λ ev, event_epoch ev ≠ None) lr ∧
    rs_data Edge.main_end = d.
Proof.
  assert (outcome (main (H := Demo.collaborators) Demo.conf) = inr Edge.main_end)
    as Hok by (vm_compute; reflexivity).
  split; [exact Hok|].
  exact (order_of_calls (H := Demo.collaborators) Demo.conf Edge.main_end Hok).
Defined.

(** X14: the pixel that was NaN in the input. *)
Lemma fitted_data_has_no_nan_witness :
  get4 (data Demo.fit_data) 0 0 0 0 = Some 0%float ∧
  PrimFloat.is_nan 0 = false.
Proof.
  assert (get4 (data Demo.fit_data) 0 0 0 0 = Some 0%float) as Hget
    by (vm_compute; reflexivity).
  split; [exact Hget|].
  exact (fitted_data_has_no_nan (H := Demo.collaborators) Demo.conf Demo.fit_model
           Demo.fit_data 0 0 0 0 0%float demo_fit_call Hget).
Defined.


(** X16: the first small configuration without a regularisation weight. *)
Lemma required_keys_are_needed_witness :
  "MU_GALAXY_XY_PRIOR" ∈ required_keys ∧
  Edge.conf_without "MU_GALAXY_XY_PRIOR" !! "MU_GALAXY_XY_PRIOR" = None ∧
  (∃ e, outcome (main (H := Demo.collaborators)
                   (Edge.conf_without "MU_GALAXY_XY_PRIOR")) = inl e) ∧
  all_calls (λ ev, ¬ is_fit_call ev)
    (main (H := Demo.collaborators) (Edge.conf_without "MU_GALAXY_XY_PRIOR")).
Proof.
  assert ("MU_GALAXY_XY_PRIOR" ∈ required_keys) as Hkey
    by (unfold required_keys; repeat constructor).
  assert (Edge.conf_without "MU_GALAXY_XY_PRIOR" !! "MU_GALAXY_XY_PRIOR" = None)
    as Hnone by (vm_compute; reflexivity).
  split; [exact Hkey|]. split; [exact Hnone|].
  exact (required_keys_are_needed (H := Demo.collaborators) _ _ Hkey Hnone).
Defined.

(** X17: the first small configuration without the list of cubes. *)
Lemma first_keys_precede_reading_witness :
  Edge.conf_without "IN_CUBE" !! "IN_CUBE" = None ∧
  calls (main (H := Demo.collaborators) (Edge.conf_without "IN_CUBE")) = [] ∧
  ∃ e, outcome (main (H := Demo.collaborators) (Edge.conf_without "IN_CUBE")) = inl e.
Proof.
  assert (Edge.conf_without "IN_CUBE" !! "IN_CUBE" = None)
    as Hnone by (vm_compute; reflexivity).
  split; [exact Hnone|].
  apply (first_keys_precede_reading (H := Demo.collaborators) _ "IN_CUBE");
    [repeat constructor|exact Hnone].
Defined.
